(** * DataForge file uploader: a shallow embedding of [file_uploader.py]

    The uploader is a straight-line command: it loads a metadata document,
    fetches a JSON schema over HTTP, validates, uploads every listed file to
    an object store and announces the result on a message queue.  The
    embedding below follows the script statement by statement.  The external
    collaborators (file system, schema service, validator, object store,
    broker, calendar) are the fields of an environment record; the calls the
    script makes to them are recorded in a trace, and Python exceptions are
    the error channel of a small state-and-exception monad. *)

From Stdlib Require Import ZArith NArith Ascii String List Lia.
From stdpp Require Import base option list strings gmap pretty.

Local Open Scope string_scope.

(** ** Python text

    A Python [str] is modelled by a Rocq [string] read as a sequence of code
    points below 256; text with larger code points is outside the model. *)

Module PyStr.

(** [c in s] for a one-character [c]. *)
Fixpoint contains (c : ascii) (s : string) : bool :=
  match s with
  | EmptyString => false
  | String a r => if Ascii.eqb a c then true else contains c r
  end.

(** [s.split(sep)] for a one-character separator: the result always has at
    least one element, and [n] separators give [n + 1] pieces. *)
Fixpoint split (sep : ascii) (s : string) : list string :=
  match s with
  | EmptyString => [EmptyString]
  | String a r =>
      if Ascii.eqb a sep then EmptyString :: split sep r
      else match split sep r with
           | h :: t => String a h :: t
           | [] => [String a EmptyString]
           end
  end.

(** [l[-1]] on the result of a split, which is never empty. *)
Definition last_piece (l : list string) : string := default "" (last l).

(** [str.lower] on one code point below 256: the upper-case letters there
    are A-Z and the Latin-1 range 0xC0-0xDE without the multiplication
    sign 0xD7, each 32 below its lower-case form. *)
Definition lower_char (a : ascii) : ascii :=
  let n := N_of_ascii a in
  if ((65 <=? n) && (n <=? 90))%N
     || ((192 <=? n) && (n <=? 222) && negb (n =? 215))%N
  then ascii_of_N (n + 32) else a.

Fixpoint lower (s : string) : string :=
  match s with
  | EmptyString => EmptyString
  | String a r => String (lower_char a) (lower r)
  end.

Definition startswith (c : ascii) (s : string) : bool :=
  match s with
  | String a _ => Ascii.eqb a c
  | EmptyString => false
  end.

Fixpoint endswith (c : ascii) (s : string) : bool :=
  match s with
  | EmptyString => false
  | String a EmptyString => Ascii.eqb a c
  | String _ r => endswith c r
  end.

Definition is_empty (s : string) : bool :=
  match s with EmptyString => true | _ => false end.

(** [os.path.join(a, b)] of [posixpath]. *)
Definition os_path_join (a b : string) : string :=
  if startswith "/" b then b
  else if is_empty a || endswith "/" a then a +:+ b
  else a +:+ "/" +:+ b.

(** [sep.join(l)]. *)
Fixpoint join (sep : string) (l : list string) : string :=
  match l with
  | [] => ""
  | [x] => x
  | x :: r => x +:+ sep +:+ join sep r
  end.

End PyStr.

(** ** Python values

    What [json.load] returns: [None], booleans, integers, strings, lists and
    dictionaries with string keys.  Floating-point numbers are left out of
    the model.  A dictionary is the list of its items in insertion order. *)

#[warnings="-register-all"]
Inductive pyval : Type :=
| PNone
| PBool (b : bool)
| PInt (z : Z)
| PStr (s : string)
| PList (l : list pyval)
| PDict (d : list (string * pyval)).

Abbreviation pydict := (list (string * pyval)).

Module Dict.

(** [d.get(k)]: the value stored under [k], if any. *)
Fixpoint get (k : string) (d : pydict) : option pyval :=
  match d with
  | [] => None
  | (k', v) :: r => if String.eqb k k' then Some v else get k r
  end.

(** [d[k] = v]: an existing key keeps its place, a new key goes last. *)
Fixpoint set (k : string) (v : pyval) (d : pydict) : pydict :=
  match d with
  | [] => [(k, v)]
  | (k', v') :: r =>
      if String.eqb k k' then (k, v) :: r else (k', v') :: set k v r
  end.

Definition keys (d : pydict) : list string := map fst d.

(** Number of items stored under [k]; at most one in a dictionary. *)
Definition count (k : string) (d : pydict) : nat :=
  length (filter (fun kv => String.eqb k (fst kv) = true) d).

(** A Python dictionary holds each key once. *)
Definition wf (d : pydict) : Prop := NoDup (keys d).

End Dict.

(** ** [json.dumps] with its default arguments *)

Module Json.

Definition hex_digit (n : N) : ascii :=
  if (n <? 10)%N then ascii_of_N (48 + n) else ascii_of_N (87 + n).

(** One character of a string literal under [ensure_ascii=True]. *)
Definition escape_char (a : ascii) : string :=
  let n := N_of_ascii a in
  if (n =? 34)%N then String (ascii_of_N 92) (String a EmptyString)
  else if (n =? 92)%N then "\\"
  else if (n =? 8)%N then "\b"
  else if (n =? 12)%N then "\f"
  else if (n =? 10)%N then "\n"
  else if (n =? 13)%N then "\r"
  else if (n =? 9)%N then "\t"
  else if ((32 <=? n) && (n <=? 126))%N then String a EmptyString
  else "\u00" +:+ String (hex_digit (n / 16)) (String (hex_digit (n mod 16)) EmptyString).

Fixpoint escape (s : string) : string :=
  match s with
  | EmptyString => EmptyString
  | String a r => escape_char a +:+ escape r
  end.

Definition quote (s : string) : string :=
  String (ascii_of_N 34) (escape s) +:+ String (ascii_of_N 34) EmptyString.

Fixpoint dumps (v : pyval) : string :=
  match v with
  | PNone => "null"
  | PBool true => "true"
  | PBool false => "false"
  | PInt z => pretty z
  | PStr s => quote s
  | PList l => "[" +:+ PyStr.join ", " (map dumps l) +:+ "]"
  | PDict d =>
      "{" +:+ PyStr.join ", " (map (fun kv => quote (fst kv) +:+ ": " +:+ dumps (snd kv)) d) +:+ "}"
  end.

End Json.

(** ** Exceptions *)

Inductive exn_class : Type :=
| ConnectionError      (* requests.exceptions.ConnectionError and subclasses *)
| HTTPError            (* requests.exceptions.HTTPError *)
| RequestException     (* any other requests exception *)
| JSONDecodeError
| ValidationError      (* jsonschema.exceptions.ValidationError *)
| SchemaError          (* jsonschema.exceptions.SchemaError *)
| KeyError
| TypeError
| ValueError
| OSError              (* FileNotFoundError, IsADirectoryError, ... *)
| StorageError         (* what the MinIO client raises *)
| BrokerError.         (* what pika raises *)

(** An exception object: its class and [str(err)]. Every class above derives
    from [Exception]. *)
Record exn : Type := Exn { exn_cls : exn_class; exn_str : string }.

Definition exn_class_eqb (a b : exn_class) : bool :=
  match a, b with
  | ConnectionError, ConnectionError | HTTPError, HTTPError
  | RequestException, RequestException | JSONDecodeError, JSONDecodeError
  | ValidationError, ValidationError | SchemaError, SchemaError
  | KeyError, KeyError | TypeError, TypeError | ValueError, ValueError
  | OSError, OSError | StorageError, StorageError | BrokerError, BrokerError => true
  | _, _ => false
  end.

(** [isinstance(e, cls)] for an [except cls] clause. *)
Definition isinstance (e : exn) (c : exn_class) : bool := exn_class_eqb (exn_cls e) c.

(** ** The file system

    A node is a regular file (its length in bytes and, when its content is a
    JSON text, the document [json.load] reads from it), a directory with its
    entries, or anything else ([is_file()] is false and a recursive glob does
    not descend: sockets, dangling links, links to directories). *)

#[warnings="-register-all"]
Inductive fsnode : Type :=
| FFile (st_size : N) (content : option pyval)
| FDir (entries : list (string * fsnode))
| FOther.

Definition is_file (n : fsnode) : bool :=
  match n with FFile _ _ => true | _ => false end.

Definition st_size (n : fsnode) : N :=
  match n with FFile sz _ => sz | _ => 0%N end.

(** [root.glob('**/*')]: every entry below the root, at any depth; the root
    itself is not produced. *)
Fixpoint glob_all (root : fsnode) : list fsnode :=
  match root with
  | FDir entries => flat_map (fun e => snd e :: glob_all (snd e)) entries
  | _ => []
  end.

(** Python's [sum] over byte counts. *)
Definition sum_N (l : list N) : N := foldr N.add 0%N l.

(** ** The object store and the broker *)

Record store : Type := Store {
  buckets : gset string;
  objects : gmap (string * string) N   (* (bucket, key) to the stored length *)
}.

Inductive minio_op : Type :=
| Minio_new (endpoint access_key secret_key : option string)
| bucket_exists (bucket : string)
| make_bucket (bucket : string)
| put_object (bucket key : string) (length : N).

Inductive broker_op : Type :=
| BlockingConnection (host port username password : option string)
| channel
| queue_declare (queue : option string) (durable : bool)
| basic_publish (exchange : string) (routing_key : option string)
    (body : string) (delivery_mode : Z)
| connection_close.

(** What the script does to the outside, in order.  A storage or broker call
    is recorded together with its outcome: [None] when it returned, [Some e]
    when it raised [e]. *)
Inductive event : Type :=
| Echo (msg : string)                      (* click.echo *)
| LogInfo (msg : string)                   (* logging.info *)
| HttpGet (url : string)                   (* requests.get *)
| Minio (op : minio_op) (raised : option exn)
| Broker (op : broker_op) (raised : option exn).

Inductive http_result : Type :=
| HttpRaises (e : exn)
| HttpResponse (status_code : Z) (body : option pyval).

(** ** The environment of one run *)

Record Env : Type := {
  API : option string;                               (* os.getenv('API') *)
  fs : string -> option fsnode;                      (* path resolution *)
  http_get : string -> http_result;                  (* the schema service *)
  jsonschema_validate : pyval -> pyval -> option exn;  (* None: valid *)
  minio_fault : store -> minio_op -> option exn;     (* a storage call raises *)
  broker_fault : broker_op -> option exn;            (* a broker call raises *)
  today : string                                     (* date.today() as %Y-%m-%d *)
}.

(** The mutable part: the trace so far and the content of the store. *)
Record world : Type := World { trace : list event; minio : store }.

(** ** The monad: state over [world], errors in [exn] *)

Definition M (A : Type) : Type := world -> (exn + A) * world.

#[global] Instance M_ret : MRet M := fun A a w => (inr a, w).
#[global] Instance M_bind : MBind M := fun A B f c w =>
  match c w with
  | (inl e, w') => (inl e, w')
  | (inr a, w') => f a w'
  end.

Definition raise {A} (e : exn) : M A := fun w => (inl e, w).

(** [try: c except Exception as e: ...], with the handler left to the caller. *)
Definition try_except {A} (c : M A) : M (exn + A) := fun w =>
  match c w with
  | (inl e, w') => (inr (inl e), w')
  | (inr a, w') => (inr (inr a), w')
  end.

Definition emit (e : event) : M unit := fun w =>
  (inr tt, World (trace w ++ [e]) (minio w)).

(** Read something off the current state. *)
Definition gets {A} (f : world -> A) : M A := fun w => (inr (f w), w).

Definition echo (msg : string) : M unit := emit (Echo msg).
Definition logging_info (msg : string) : M unit := emit (LogInfo msg).

(** [f'{x}'] for a value that may be [None]. *)
Definition fmt (o : option string) : string := default "None" o.

(** ** Operations on Python values the loop relies on *)

Definition type_name (v : pyval) : string :=
  match v with
  | PNone => "NoneType" | PBool _ => "bool" | PInt _ => "int"
  | PStr _ => "str" | PList _ => "list" | PDict _ => "dict"
  end.

Fixpoint chars (s : string) : list pyval :=
  match s with
  | EmptyString => []
  | String a r => PStr (String a EmptyString) :: chars r
  end.

(** [for x in v]: the items a [for] loop visits, or the [TypeError]. *)
Definition py_iter (v : pyval) : M (list pyval) :=
  match v with
  | PList l => mret l
  | PDict d => mret (map (fun kv => PStr (fst kv)) d)
  | PStr s => mret (chars s)
  | _ => raise (Exn TypeError ("'" +:+ type_name v +:+ "' object is not iterable"))
  end.

(** [v[k]] for a string [k]. *)
Definition py_getitem (v : pyval) (k : string) : M pyval :=
  match v with
  | PDict d =>
      match Dict.get k d with
      | Some x => mret x
      | None => raise (Exn KeyError ("'" +:+ k +:+ "'"))
      end
  | PStr _ => raise (Exn TypeError "string indices must be integers, not 'str'")
  | PList _ => raise (Exn TypeError "list indices must be integers or slices, not str")
  | _ => raise (Exn TypeError ("'" +:+ type_name v +:+ "' object is not subscriptable"))
  end.

(** [v[k] = x] for a string [k]. *)
Definition py_setitem (v : pyval) (k : string) (x : pyval) : M pyval :=
  match v with
  | PDict d => mret (PDict (Dict.set k x d))
  | PList _ => raise (Exn TypeError "list indices must be integers or slices, not str")
  | _ => raise (Exn TypeError ("'" +:+ type_name v +:+ "' object does not support item assignment"))
  end.

(** [os.path.join(dir_path, v)] accepts only text here. *)
Definition os_path_join_val (dir_path : string) (v : pyval) : M string :=
  match v with
  | PStr s => mret (PyStr.os_path_join dir_path s)
  | _ => raise (Exn TypeError
           ("join() argument must be str, bytes, or os.PathLike object, not '"
            +:+ type_name v +:+ "'"))
  end.

(** Set membership goes by hash and equality: [True == 1] and [False == 0]. *)
Inductive hkey : Type := HNone | HNum (z : Z) | HStr (s : string).

Definition hash_key (v : pyval) : option hkey :=
  match v with
  | PNone => Some HNone
  | PBool b => Some (HNum (if b then 1 else 0))
  | PInt z => Some (HNum z)
  | PStr s => Some (HStr s)
  | PList _ | PDict _ => None
  end.

Definition hkey_eqb (a b : hkey) : bool :=
  match a, b with
  | HNone, HNone => true
  | HNum x, HNum y => Z.eqb x y
  | HStr x, HStr y => String.eqb x y
  | _, _ => false
  end.

(** [s.add(v)]; the set is kept as the list of its members in the order they
    were first added (the order in which Python later lists them is not
    specified, and nothing below depends on it). *)
Definition set_add (v : pyval) (s : list pyval) : M (list pyval) :=
  match hash_key v with
  | None => raise (Exn TypeError ("unhashable type: '" +:+ type_name v +:+ "'"))
  | Some k =>
      if existsb (fun x => match hash_key x with
                           | Some k' => hkey_eqb k' k
                           | None => false
                           end) s
      then mret s else mret (s ++ [v])%list
  end.

(** [indexing_metadata['files'].append(r)]. *)
Definition files_append (r : pyval) (im : pydict) : M pydict :=
  files ← py_getitem (PDict im) "files";
  match files with
  | PList l => mret (Dict.set "files" (PList (l ++ [r])) im)
  | _ => raise (Exn TypeError ("'" +:+ type_name files +:+ "' object has no attribute 'append'"))
  end.

(** ** The command *)

(** The command-line flags; those with an environment default may be [None]. *)
Record args : Type := Args {
  dir_path : string;
  metadatafile : string;
  dataclass : string;
  bucket : string;
  endpoint : option string;
  access_key : option string;
  secret_key : option string;
  queue : option string;
  host : option string;
  port : option string;
  username : option string;
  password : option string
}.

(** Lines 82-88: the bucket flag, or the lower-cased last piece of the path. *)
Definition resolve_bucket (bucket dir_path : string) : string :=
  if PyStr.is_empty bucket then
    PyStr.lower
      (if PyStr.contains "/" dir_path
       then PyStr.last_piece (PyStr.split "/" dir_path)
       else dir_path)
  else bucket.

Section Run.

Variable E : Env.

Definition os_path_exists (path : string) : bool :=
  match fs E path with Some _ => true | None => false end.

(** [open(path)] for reading: the node behind the path must be a regular
    file (access rights are not modelled). *)
Definition open_file (path : string) : M fsnode :=
  match fs E path with
  | Some (FFile sz c) => mret (FFile sz c)
  | Some (FDir _) => raise (Exn OSError ("[Errno 21] Is a directory: '" +:+ path +:+ "'"))
  | Some FOther => raise (Exn OSError ("[Errno 6] No such device or address: '" +:+ path +:+ "'"))
  | None => raise (Exn OSError ("[Errno 2] No such file or directory: '" +:+ path +:+ "'"))
  end.

(** [json.load(f)]. *)
Definition json_load (f : fsnode) : M pyval :=
  match f with
  | FFile _ (Some doc) => mret doc
  | _ => raise (Exn JSONDecodeError "Expecting value")
  end.

(** Lines 26-31. *)
Definition get_dataset_size (path : string) : N :=
  match fs E path with
  | Some root_directory =>
      sum_N (map st_size (filter (fun f => is_file f = true) (glob_all root_directory)))
  | None => 0%N
  end.

(** [requests.get(url)]. *)
Definition requests_get (url : string) : M (Z * option pyval) :=
  emit (HttpGet url);;
  match http_get E url with
  | HttpRaises e => raise e
  | HttpResponse status body => mret (status, body)
  end.

(** [res.raise_for_status()] of the requests library: an [HTTPError] for
    the client-error and server-error codes 400 to 599, nothing otherwise.
    The text of the exception is not used by the handler. *)
Definition raise_for_status (res : Z * option pyval) : M unit :=
  let status := fst res in
  if ((400 <=? status) && (status <? 600))%Z
  then raise (Exn HTTPError (pretty status +:+ " Error"))
  else mret tt.

(** [res.json()]. *)
Definition res_json (res : Z * option pyval) : M pyval :=
  match snd res with
  | Some doc => mret doc
  | None => raise (Exn JSONDecodeError "Expecting value")
  end.

(** [jsonschema.validate(instance, schema)]. *)
Definition validate (instance schema : pyval) : M unit :=
  match jsonschema_validate E instance schema with
  | Some e => raise e
  | None => mret tt
  end.

(** What a storage call that returns does to the store. *)
Definition store_apply (op : minio_op) (s : store) : store :=
  match op with
  | make_bucket b => Store ({[ b ]} ∪ buckets s) (objects s)
  | put_object b key len => Store (buckets s) (<[ (b, key) := len ]> (objects s))
  | _ => s
  end.

(** One call on the MinIO client, recorded with its outcome. *)
Definition minio_call (op : minio_op) : M unit := fun w =>
  match minio_fault E (minio w) op with
  | Some e => (inl e, World (trace w ++ [Minio op (Some e)]) (minio w))
  | None => (inr tt, World (trace w ++ [Minio op None]) (store_apply op (minio w)))
  end.

Definition client_bucket_exists (b : string) : M bool :=
  minio_call (bucket_exists b);;
  gets (fun w => bool_decide (b ∈ buckets (minio w))).

(** One call on the pika connection or channel. *)
Definition broker_call (op : broker_op) : M unit :=
  match broker_fault E op with
  | Some e => emit (Broker op (Some e));; raise e
  | None => emit (Broker op None)
  end.

(** Lines 106-114: the loop over the metadata records, carrying the set of
    image types and the message under construction.  The progress bar that
    wraps the iteration only draws on the terminal and is left out.  Each
    record is a fresh object of the loaded document, so setting its bucket
    field and appending it is written as building the updated record. *)
Fixpoint upload_files (a : args) (bucket : string) (items : list pyval)
    (img_format : list pyval) (indexing_metadata : pydict)
    : M (list pyval * pydict) :=
  match items with
  | [] => mret (img_format, indexing_metadata)
  | file_details :: rest =>
      image_path ← py_getitem file_details "image_path";
      file_path ← os_path_join_val (dir_path a) image_path;
      image_type ← py_getitem file_details "image_type";
      img_format ← set_add image_type img_format;
      f ← open_file file_path;
      logging_info ("Uploading " +:+ file_path +:+ " to " +:+ bucket +:+ " on MinIO server.");;
      minio_call (put_object bucket file_path (st_size f));;
      logging_info ("Successfully uploaded " +:+ file_path +:+ " to " +:+ bucket +:+ " on MinIO server.");;
      file_details ← py_setitem file_details "bucket" (PStr bucket);
      indexing_metadata ← files_append file_details indexing_metadata;
      upload_files a bucket rest img_format indexing_metadata
  end.

(** Lines 96-127: the body of the first [try]. *)
Definition upload_step (a : args) (bucket : string) (metadata : pyval)
    (indexing_metadata : pydict) : M pydict :=
  found ← client_bucket_exists bucket;
  (if found : bool then
     echo ("Bucket " +:+ bucket +:+ " already exists on MinIO server.")
   else
     logging_info ("Creating bucket " +:+ bucket +:+ " on MinIO server.");;
     minio_call (make_bucket bucket);;
     echo ("Bucket " +:+ bucket +:+ " created on MinIO server."));;
  logging_info ("Uploading files in " +:+ dir_path a +:+ " to bucket " +:+ bucket +:+ " on MinIO server.");;
  items ← py_iter metadata;
  r ← upload_files a bucket items [] indexing_metadata;
  let img_format := fst r in
  let indexing_metadata := Dict.set "dataset_name" (PStr bucket) (snd r) in
  echo ("Successfully uploaded " +:+ dir_path a +:+ " to " +:+ bucket +:+ " on MinIO server.");;
  let dataset_details :=
    [ ("name", PStr (dir_path a));
      ("bucket", PStr bucket);
      ("date", PStr (today E));
      ("size", PInt (Z.of_N (get_dataset_size (dir_path a))));
      ("filetype", PList img_format) ] in
  mret (Dict.set "dataset_details" (PDict dataset_details) indexing_metadata).

(** Lines 135-155: the second [try]. *)
Definition announce (a : args) (indexing_metadata : pydict) : M unit :=
  r ← try_except (
    broker_call (BlockingConnection (host a) (port a) (username a) (password a));;
    broker_call channel;;
    broker_call (queue_declare (queue a) true);;
    broker_call (basic_publish "" (queue a) (Json.dumps (PDict indexing_metadata)) 2);;
    echo ("Successfully sent metadata for " +:+ dir_path a +:+ " to " +:+ fmt (queue a) +:+ " on RabbitMQ server.");;
    broker_call connection_close);
  match r with
  | inl _ => echo "Error sending metadata to RabbitMQ"
  | inr _ => mret tt
  end.

(** Lines 80-155: what follows a successful validation. *)
Definition upload_and_announce (a : args) (metadata : pyval) : M unit :=
  let indexing_metadata := Dict.set "files" (PList []) [] in
  let bucket := resolve_bucket (bucket a) (dir_path a) in
  minio_call (Minio_new (endpoint a) (access_key a) (secret_key a));;
  logging_info ("Initialized MinIO client with endpoint " +:+ fmt (endpoint a) +:+ ".");;
  r ← try_except (upload_step a bucket metadata indexing_metadata);
  match r with
  | inl err => echo ("Error uploading file: " +:+ exn_str err)
  | inr indexing_metadata => announce a indexing_metadata
  end.

(** Lines 54-155. *)
Definition upload_dataset (a : args) : M unit :=
  let metadatafile := PyStr.os_path_join (dir_path a) (metadatafile a) in
  if negb (os_path_exists metadatafile) then
    echo ("Error: metadata file " +:+ metadatafile +:+ " does not exist.")
  else
    f ← open_file metadatafile;
    metadata ← json_load f;
    r ← try_except (
      res ← requests_get (fmt (API E) +:+ "/" +:+ dataclass a);
      raise_for_status res;;
      mret res);
    match r with
    | inl e =>
        if isinstance e ConnectionError then
          echo "Error: Failed to connect to server."
        else if isinstance e HTTPError then
          echo ("Error: Cannot retrieve schema for dataclass " +:+ dataclass a +:+ " from the database.")
        else raise e
    | inr res =>
        schema ← res_json res;
        v ← try_except (validate metadata schema);
        match v with
        | inl e =>
            if isinstance e ValidationError then
              echo ("Error: metadata file " +:+ metadatafile +:+ " does not match the schema.")
            else raise e
        | inr _ =>
            echo ("Validated metadata file " +:+ metadatafile +:+ " against the schema.");;
            upload_and_announce a metadata
        end
    end.

End Run.

(** A run of the command from an empty trace and a given store. *)
Definition run (E : Env) (a : args) (s0 : store) : (exn + unit) * world :=
  upload_dataset E a (World [] s0).

(** ** Vocabulary of the statements *)

Definition metadata_path (a : args) : string :=
  PyStr.os_path_join (dir_path a) (metadatafile a).

Definition schema_url (E : Env) (a : args) : string :=
  fmt (API E) +:+ "/" +:+ dataclass a.

Definition target_bucket (a : args) : string :=
  resolve_bucket (bucket a) (dir_path a).

(** The state in which the first [try] is entered: the client has been
    built and the fact logged. *)
Definition client_ready (a : args) (w : world) : world :=
  World (trace w ++ [ Minio (Minio_new (endpoint a) (access_key a) (secret_key a)) None;
                      LogInfo ("Initialized MinIO client with endpoint " +:+ fmt (endpoint a) +:+ ".") ])
        (minio w).

Definition is_broker (e : event) : bool :=
  match e with Broker _ _ => true | _ => false end.

Definition is_minio (e : event) : bool :=
  match e with Minio _ _ => true | _ => false end.

Definition is_echo (e : event) : bool :=
  match e with Echo _ => true | _ => false end.

Definition is_http (e : event) : bool :=
  match e with HttpGet _ => true | _ => false end.

(** The broker calls of a trace, in order, whatever their outcome. *)
Definition broker_calls (evs : list event) : list broker_op :=
  omap (fun e => match e with Broker op _ => Some op | _ => None end) evs.

(** The announcer's contract for a message [im]. *)
Definition announcer_calls (a : args) (im : pydict) : list broker_op :=
  [ BlockingConnection (host a) (port a) (username a) (password a);
    channel;
    queue_declare (queue a) true;
    basic_publish "" (queue a) (Json.dumps (PDict im)) 2;
    connection_close ].

(** The bytes of the regular files in a tree, by recursion on the tree. *)
Fixpoint tree_bytes (n : fsnode) : N :=
  match n with
  | FFile sz _ => sz
  | FDir entries => sum_N (map (fun e => tree_bytes (snd e)) entries)
  | FOther => 0%N
  end.

(** The same for what lies below a root; a root that is no directory has
    nothing below it. *)
Definition bytes_below (root : fsnode) : N :=
  match root with
  | FDir _ => tree_bytes root
  | _ => 0%N
  end.

(** [holds_file E key len]: the path [key] names a regular file of [len] bytes. *)
Definition holds_file (E : Env) (key : string) (len : N) : Prop :=
  exists f, fs E key = Some f /\ is_file f = true /\ st_size f = len.

(** What the upload step may do to the world between two of its states: it
    only adds events, none of them a broker call; the store only grows;
    every object it has put is in the store, with the length of the file
    of that name. *)
Definition steps (E : Env) (w w' : world) : Prop :=
  exists evs,
    trace w' = (trace w ++ evs)%list
    /\ Forall (fun e => is_broker e = false) evs
    /\ buckets (minio w) ⊆ buckets (minio w')
    /\ dom (objects (minio w)) ⊆ dom (objects (minio w'))
    /\ (forall b k len, Minio (put_object b k len) None ∈ evs ->
          holds_file E k len /\ objects (minio w') !! (b, k) = Some len)
    /\ (forall b k len, holds_file E k len ->
          objects (minio w) !! (b, k) = Some len ->
          objects (minio w') !! (b, k) = Some len).

(** A computation keeps a relation between the state it starts in and the
    state it ends in, whether it returns or raises. *)
Definition preserves {A} (R : relation world) (c : M A) : Prop :=
  forall w, R w (c w).2.

(** The exception a storage call of the trace raised, if the event is one. *)
Definition minio_raised (e : event) : option exn :=
  match e with
  | Minio _ (Some x) => Some x
  | _ => None
  end.

(** A computation lets storage failures through: when it returns, none of
    its storage calls raised; when it raises, the exception is that of any
    storage call of its own that raised. *)
Definition surfaces {A} (c : M A) : Prop :=
  forall w, exists evs,
    trace (c w).2 = (trace w ++ evs)%list
    /\ match (c w).1 with
       | inr _ => Forall (fun e => minio_raised e = None) evs
       | inl err => forall e x, e ∈ evs -> minio_raised e = Some x -> x = err
       end.

(** [uploaded E a b evs item r]: the record [item] of the metadata was
    uploaded to bucket [b] by a call in [evs] that returned, and [r] is that
    record with its bucket field set. *)
Definition uploaded (E : Env) (a : args) (b : string) (evs : list event)
    (item r : pyval) : Prop :=
  exists d p f,
    item = PDict d
    /\ r = PDict (Dict.set "bucket" (PStr b) d)
    /\ Dict.get "image_path" d = Some (PStr p)
    /\ fs E (PyStr.os_path_join (dir_path a) p) = Some f
    /\ is_file f = true
    /\ Minio (put_object b (PyStr.os_path_join (dir_path a) p) (st_size f)) None ∈ evs.

(** [uploadable E a rec]: nothing in the loop body can raise on the record
    [rec] except the storage call: it is a dictionary with a textual image
    path that names a regular file, and a hashable image type. *)
Definition uploadable (E : Env) (a : args) (rec : pyval) : Prop :=
  exists d p t f,
    rec = PDict d
    /\ Dict.get "image_path" d = Some (PStr p)
    /\ Dict.get "image_type" d = Some t
    /\ is_Some (hash_key t)
    /\ fs E (PyStr.os_path_join (dir_path a) p) = Some f
    /\ is_file f = true.

(** [tagged b rec r]: [r] is the record [rec] with its bucket field set to
    [b]: it has one bucket field, holding [b], and every other field is as
    in [rec]. *)
Definition tagged (b : string) (rec r : pyval) : Prop :=
  exists d,
    rec = PDict d
    /\ r = PDict (Dict.set "bucket" (PStr b) d)
    /\ Dict.count "bucket" (Dict.set "bucket" (PStr b) d) = 1
    /\ Dict.get "bucket" (Dict.set "bucket" (PStr b) d) = Some (PStr b)
    /\ forall k, k <> "bucket" ->
         Dict.get k (Dict.set "bucket" (PStr b) d) = Dict.get k d.

(** ** The scenario of the specification: directory catset *)

Module Catset.

Definition metadata : pyval :=
  PList [ PDict [("image_path", PStr "cat1.jpg"); ("image_type", PStr "jpg")];
          PDict [("image_path", PStr "cat2.png"); ("image_type", PStr "png")] ].

Definition root : fsnode :=
  FDir [ ("metadata.json", FFile 120 (Some metadata));
         ("cat1.jpg", FFile 1000 None);
         ("cat2.png", FFile 2000 None);
         ("notes", FDir [("readme.txt", FFile 7 None)]) ].

Definition files (p : string) : option fsnode :=
  if String.eqb p "catset" then Some root
  else if String.eqb p "catset/metadata.json" then Some (FFile 120 (Some metadata))
  else if String.eqb p "catset/cat1.jpg" then Some (FFile 1000 None)
  else if String.eqb p "catset/cat2.png" then Some (FFile 2000 None)
  else None.

Definition schema : pyval := PDict [("type", PStr "array")].

(** Everything works. *)
Definition env : Env := {|
  API := Some "http://api";
  fs := files;
  http_get := fun _ => HttpResponse 200 (Some schema);
  jsonschema_validate := fun _ _ => None;
  minio_fault := fun _ _ => None;
  broker_fault := fun _ => None;
  today := "2024-01-01" |}.

Definition flags : args :=
  Args "catset" "metadata.json" "animals" ""
       (Some "minio:9000") (Some "ak") (Some "sk")
       (Some "q") (Some "rabbit") (Some "5672") (Some "u") (Some "p").

Definition empty_store : store := Store ∅ ∅.

(** The metadata file is not there. *)
Definition env_no_metadata : Env := {|
  API := API env; fs := fun _ => None; http_get := http_get env;
  jsonschema_validate := jsonschema_validate env;
  minio_fault := minio_fault env; broker_fault := broker_fault env;
  today := today env |}.

(** The validator rejects the document. *)
Definition env_invalid : Env := {|
  API := API env; fs := fs env; http_get := http_get env;
  jsonschema_validate := fun _ _ => Some (Exn ValidationError "[] is not of type 'object'");
  minio_fault := minio_fault env; broker_fault := broker_fault env;
  today := today env |}.

(** The schema service cannot be reached. *)
Definition env_unreachable : Env := {|
  API := API env; fs := fs env;
  http_get := fun _ => HttpRaises (Exn ConnectionError "Connection refused");
  jsonschema_validate := jsonschema_validate env;
  minio_fault := minio_fault env; broker_fault := broker_fault env;
  today := today env |}.

(** The schema service answers with the given status and the schema. *)
Definition env_status (status : Z) : Env := {|
  API := API env; fs := fs env;
  http_get := fun _ => HttpResponse status (Some schema);
  jsonschema_validate := jsonschema_validate env;
  minio_fault := minio_fault env; broker_fault := broker_fault env;
  today := today env |}.

(** The store refuses the second file. *)
Definition env_second_put_fails : Env := {|
  API := API env; fs := fs env; http_get := http_get env;
  jsonschema_validate := jsonschema_validate env;
  minio_fault := fun _ op =>
    match op with
    | put_object _ key _ =>
        if String.eqb key "catset/cat2.png"
        then Some (Exn StorageError "S3 operation failed") else None
    | _ => None
    end;
  broker_fault := broker_fault env;
  today := today env |}.

(** The message of the scenario. *)
Definition message : pydict :=
  [ ("files", PList
       [ PDict [("image_path", PStr "cat1.jpg"); ("image_type", PStr "jpg"); ("bucket", PStr "catset")];
         PDict [("image_path", PStr "cat2.png"); ("image_type", PStr "png"); ("bucket", PStr "catset")] ]);
    ("dataset_name", PStr "catset");
    ("dataset_details", PDict
       [ ("name", PStr "catset"); ("bucket", PStr "catset");
         ("date", PStr "2024-01-01"); ("size", PInt 3127);
         ("filetype", PList [PStr "jpg"; PStr "png"]) ]) ].

Definition records : list pyval :=
  [ PDict [("image_path", PStr "cat1.jpg"); ("image_type", PStr "jpg")];
    PDict [("image_path", PStr "cat2.png"); ("image_type", PStr "png")] ].

End Catset.

(** ** More vocabulary: events of a computation, put calls, image types *)

(** [emits P w w']: from [w] to [w'] the trace only grew, by events that all
    satisfy [P]. *)
Definition emits (P : event -> Prop) (w w' : world) : Prop :=
  exists evs, trace w' = (trace w ++ evs)%list /\ Forall P evs.

(** The put calls of a trace that returned, in order: bucket, key, length. *)
Definition put_calls (evs : list event) : list (string * string * N) :=
  omap (fun e => match e with
                 | Minio (put_object b k len) None => Some (b, k, len)
                 | _ => None
                 end) evs.

Definition is_put (e : event) : bool :=
  match e with Minio (put_object _ _ _) _ => true | _ => false end.

Definition is_make_bucket (e : event) : bool :=
  match e with Minio (make_bucket _) _ => true | _ => false end.

(** The hash keys of the members of a set of image types. *)
Definition hkeys (s : list pyval) : list hkey := omap hash_key s.

(** [put_for E a b items e]: if [e] is a put call, it puts into [b] the
    regular file named by the image path of a record of [items], under the
    joined path as key and with the length of that file. *)
Definition put_for (E : Env) (a : args) (b : string) (items : list pyval)
    (e : event) : Prop :=
  forall b' k len o,
    e = Minio (put_object b' k len) o ->
    b' = b
    /\ holds_file E k len
    /\ exists d p, PDict d ∈ items
                   /\ Dict.get "image_path" d = Some (PStr p)
                   /\ k = PyStr.os_path_join (dir_path a) p.

(** [put_of E a b item call]: [call] is the put of the record [item] into
    bucket [b]: the record has a textual image path naming a regular file,
    the key is the joined path and the length is that of the file. *)
Definition put_of (E : Env) (a : args) (b : string) (item : pyval)
    (call : string * string * N) : Prop :=
  exists d p f,
    item = PDict d
    /\ Dict.get "image_path" d = Some (PStr p)
    /\ fs E (PyStr.os_path_join (dir_path a) p) = Some f
    /\ is_file f = true
    /\ call = (b, PyStr.os_path_join (dir_path a) p, st_size f).

(** ** Further scenarios *)

Module Cases.

(** The metadata file holds no JSON text. *)
Definition env_malformed : Env := {|
  API := API Catset.env;
  fs := fun p => if String.eqb p "catset/metadata.json"
                 then Some (FFile 11 None) else fs Catset.env p;
  http_get := http_get Catset.env;
  jsonschema_validate := jsonschema_validate Catset.env;
  minio_fault := minio_fault Catset.env; broker_fault := broker_fault Catset.env;
  today := today Catset.env |}.

(** The GET fails with an exception that is neither a connection error nor
    an HTTP error (here: the API variable is unset, so the URL has no scheme). *)
Definition env_no_api : Env := {|
  API := None; fs := fs Catset.env;
  http_get := fun _ => HttpRaises (Exn RequestException "Invalid URL 'None/animals': No scheme supplied.");
  jsonschema_validate := jsonschema_validate Catset.env;
  minio_fault := minio_fault Catset.env; broker_fault := broker_fault Catset.env;
  today := today Catset.env |}.

(** The fetched schema is itself not a valid schema. *)
Definition env_bad_schema : Env := {|
  API := API Catset.env; fs := fs Catset.env; http_get := http_get Catset.env;
  jsonschema_validate := fun _ _ => Some (Exn SchemaError "'arrray' is not valid under any of the given schemas");
  minio_fault := minio_fault Catset.env; broker_fault := broker_fault Catset.env;
  today := today Catset.env |}.

(** The storage client cannot be built. *)
Definition env_no_client : Env := {|
  API := API Catset.env; fs := fs Catset.env; http_get := http_get Catset.env;
  jsonschema_validate := jsonschema_validate Catset.env;
  minio_fault := fun _ op =>
    match op with
    | Minio_new _ _ _ => Some (Exn ValueError "path in endpoint is not allowed")
    | _ => None
    end;
  broker_fault := broker_fault Catset.env;
  today := today Catset.env |}.

(** The broker refuses the queue declaration. *)
Definition env_declare_fails : Env := {|
  API := API Catset.env; fs := fs Catset.env; http_get := http_get Catset.env;
  jsonschema_validate := jsonschema_validate Catset.env;
  minio_fault := minio_fault Catset.env;
  broker_fault := fun op =>
    match op with
    | queue_declare _ _ => Some (Exn BrokerError "PRECONDITION_FAILED")
    | _ => None
    end;
  today := today Catset.env |}.

(** A store in which the bucket of the scenario is already there. *)
Definition store_with_bucket : store := Store {[ "catset" ]} ∅.

(** A document whose second record has no image path. *)
Definition records_missing_path : list pyval :=
  [ PDict [("image_path", PStr "cat1.jpg"); ("image_type", PStr "jpg")];
    PDict [("image_type", PStr "png")];
    PDict [("image_path", PStr "cat2.png"); ("image_type", PStr "png")] ].


(** A document that is an object, not a list. *)
Definition object_document : pyval :=
  PDict [("image_path", PStr "cat1.jpg"); ("image_type", PStr "jpg")].

(** A document that lists the same file twice and mixes image types. *)
Definition records_repeated : list pyval :=
  [ PDict [("image_path", PStr "cat1.jpg"); ("image_type", PStr "jpg")];
    PDict [("image_path", PStr "cat2.png"); ("image_type", PStr "png")];
    PDict [("image_path", PStr "cat1.jpg"); ("image_type", PStr "jpg")] ].

Definition start : world := World [] Catset.empty_store.

End Cases.

(** * Properties *)

Local Open Scope list_scope.

(** ** Text *)

Example split_ex1 : PyStr.split "/" "a/b/MyData" = ["a"; "b"; "MyData"].
Proof. reflexivity. Qed.
Example split_ex2 : PyStr.split "/" "a/b/" = ["a"; "b"; ""].
Proof. reflexivity. Qed.
Example split_ex3 : PyStr.split "/" "" = [""].
Proof. reflexivity. Qed.
Example lower_ex1 : PyStr.lower "MyData_01" = "mydata_01".
Proof. reflexivity. Qed.
Example join_ex1 : PyStr.os_path_join "catset" "metadata.json" = "catset/metadata.json".
Proof. reflexivity. Qed.
Example join_ex2 : PyStr.os_path_join "catset/" "/abs/x" = "/abs/x".
Proof. reflexivity. Qed.

Lemma split_nonempty sep s : PyStr.split sep s <> [].
Proof.
  destruct s as [|a r]; simpl; [discriminate|].
  destruct (Ascii.eqb a sep); [discriminate|].
  destruct (PyStr.split sep r); discriminate.
Qed.

(** The last piece really is the last element of the split. *)
Lemma split_last sep s :
  exists init, PyStr.split sep s = (init ++ [PyStr.last_piece (PyStr.split sep s)])%list.
Proof.
  unfold PyStr.last_piece.
  pose proof (split_nonempty sep s) as Hne.
  destruct (PyStr.split sep s) as [|x l _] using rev_ind; [done|].
  exists l. by rewrite last_snoc.
Qed.

(** A text without the separator is its own single piece. *)
Lemma split_no_sep sep s :
  PyStr.contains sep s = false -> PyStr.split sep s = [s].
Proof.
  induction s as [|a r IH]; simpl; [done|].
  destruct (Ascii.eqb a sep); [done|].
  intros H. by rewrite (IH H).
Qed.

(** Joining the pieces with the separator gives the text back. *)
Lemma join_split sep s :
  PyStr.join (String sep EmptyString) (PyStr.split sep s) = s.
Proof.
  induction s as [|a r IH]; simpl; [done|].
  pose proof (split_nonempty sep r) as Hne.
  destruct (Ascii.eqb_spec a sep) as [->|Hsep];
    destruct (PyStr.split sep r) as [|h t]; try done.
  - simpl. by rewrite <- IH.
  - rewrite <- IH. by destruct t.
Qed.

(** A text that ends with the separator has an empty last piece. *)
Lemma split_ends_with_sep sep s :
  PyStr.endswith sep s = true -> PyStr.last_piece (PyStr.split sep s) = "".
Proof.
  unfold PyStr.last_piece.
  induction s as [|a r IH]; [done|].
  destruct r as [|b r'].
  - simpl. by intros ->.
  - intros H. change (PyStr.endswith sep (String b r') = true) in H.
    specialize (IH H).
    pose proof (join_split sep (String b r')) as J.
    pose proof (split_nonempty sep (String b r')) as Hne.
    change (PyStr.split sep (String a (String b r')))
      with (if Ascii.eqb a sep then EmptyString :: PyStr.split sep (String b r')
            else match PyStr.split sep (String b r') with
                 | h :: t => String a h :: t
                 | [] => [String a EmptyString]
                 end).
    destruct (PyStr.split sep (String b r')) as [|h t]; [done|].
    destruct (Ascii.eqb a sep); [exact IH|].
    destruct t as [|h' t']; [|exact IH].
    (* a single empty piece would make the text empty *)
    simpl in IH, J. by subst h.
Qed.

Lemma contains_of_endswith sep s :
  PyStr.endswith sep s = true -> PyStr.contains sep s = true.
Proof.
  induction s as [|a r IH]; [done|].
  destruct r as [|b r'].
  - simpl. by intros ->.
  - intros H. change (PyStr.endswith sep (String b r') = true) in H.
    change (PyStr.contains sep (String a (String b r')))
      with (if Ascii.eqb a sep then true else PyStr.contains sep (String b r')).
    rewrite (IH H). by destruct (Ascii.eqb a sep).
Qed.

(** ** The bucket resolver *)

(** C3: with no bucket flag the bucket is the lower-cased last element of
    the directory path split on the slash; a/b/MyData gives mydata, and a
    path without a slash is lower-cased whole. *)
Theorem bucket_is_lowered_last_segment (dir_path : string) :
  resolve_bucket "" dir_path
    = PyStr.lower (PyStr.last_piece (PyStr.split "/" dir_path))
  /\ (exists init,
        PyStr.split "/" dir_path
          = (init ++ [PyStr.last_piece (PyStr.split "/" dir_path)])%list)
  /\ (PyStr.contains "/" dir_path = false ->
        resolve_bucket "" dir_path = PyStr.lower dir_path)
  /\ resolve_bucket "" "a/b/MyData" = "mydata".
Proof.
  split; [|split; [apply split_last|split; [|reflexivity]]].
  - unfold resolve_bucket. simpl PyStr.is_empty. cbv iota.
    destruct (PyStr.contains "/" dir_path) eqn:Hc; [done|].
    by rewrite (split_no_sep _ _ Hc).
  - intros Hc. unfold resolve_bucket. simpl PyStr.is_empty. cbv iota. by rewrite Hc.
Qed.

Lemma bucket_is_lowered_last_segment_witness :
  PyStr.contains "/" "MyData" = false /\ resolve_bucket "" "MyData" = "mydata".
Proof.
  split; [reflexivity|].
  exact (proj1 (proj2 (proj2 (bucket_is_lowered_last_segment "MyData"))) eq_refl).
Defined.

(** C10: a directory path with a trailing slash and no bucket flag gives the
    empty bucket name, not the name of the last directory; a bucket flag is
    taken as it is, without lower-casing. *)
Theorem trailing_slash_gives_empty_bucket (dir_path flag : string) :
  (PyStr.contains "/" dir_path = true ->
   PyStr.endswith "/" dir_path = true ->
   resolve_bucket "" dir_path = "")
  /\ (flag <> "" -> resolve_bucket flag dir_path = flag)
  /\ resolve_bucket "" "a/b/MyData/" <> PyStr.lower "MyData".
Proof.
  split; [|split].
  - intros Hc He. unfold resolve_bucket. simpl PyStr.is_empty. cbv iota.
    rewrite Hc. by rewrite (split_ends_with_sep _ _ He).
  - intros Hflag. unfold resolve_bucket. by destruct flag.
  - discriminate.
Qed.

Lemma trailing_slash_gives_empty_bucket_witness :
  resolve_bucket "" "a/b/MyData/" = ""
  /\ resolve_bucket "MyBucket" "a/b/MyData/" = "MyBucket".
Proof.
  pose proof (trailing_slash_gives_empty_bucket "a/b/MyData/" "MyBucket") as [H1 [H2 _]].
  split; [apply H1; reflexivity | apply H2; discriminate].
Defined.

(** ** Running the monad *)

Lemma bind_run {A B} (c : M A) (f : A -> M B) (w : world) :
  (c ≫= f) w = match c w with
               | (inl e, w') => (inl e, w')
               | (inr a, w') => f a w'
               end.
Proof. reflexivity. Qed.

Lemma bind_inr {A B} (c : M A) (f : A -> M B) w a w' :
  c w = (inr a, w') -> (c ≫= f) w = f a w'.
Proof. intros H. by rewrite bind_run, H. Qed.

Lemma bind_inl {A B} (c : M A) (f : A -> M B) w e w' :
  c w = (inl e, w') -> (c ≫= f) w = (inl e, w').
Proof. intros H. by rewrite bind_run, H. Qed.

(** A computation that returns has run its first part to a value. *)
Lemma bind_inr_inv {A B} (c : M A) (f : A -> M B) w b w' :
  (c ≫= f) w = (inr b, w') ->
  exists a w1, c w = (inr a, w1) /\ f a w1 = (inr b, w').
Proof.
  rewrite bind_run. destruct (c w) as [[e|a] w1]; [done|]. eauto.
Qed.

Lemma bind_inl_inv {A B} (c : M A) (f : A -> M B) w e w' :
  (c ≫= f) w = (inl e, w') ->
  c w = (inl e, w') \/ exists a w1, c w = (inr a, w1) /\ f a w1 = (inl e, w').
Proof.
  rewrite bind_run. destruct (c w) as [[e'|a] w1]; [|by eauto].
  intros [= -> ->]. by left.
Qed.

Lemma try_run {A} (c : M A) w :
  try_except c w = (inr (c w).1, (c w).2).
Proof. unfold try_except. by destruct (c w) as [[?|?] ?]. Qed.

(** ** The early exits *)

(** C6: when the metadata file does not exist the command echoes the
    does-not-exist message and returns without raising; that message is its
    whole trace, so there is no HTTP request, no storage call and no broker
    call, and the store is left as it was. *)
Theorem missing_metadata_file_stops_the_run (E : Env) (a : args) (s0 : store) :
  fs E (metadata_path a) = None ->
  run E a s0
    = (inr tt,
       World [Echo ("Error: metadata file " +:+ metadata_path a +:+ " does not exist.")] s0).
Proof.
  intros H. unfold run, upload_dataset, os_path_exists.
  fold (metadata_path a). by rewrite H.
Qed.

Lemma missing_metadata_file_stops_the_run_witness :
  run Catset.env_no_metadata Catset.flags Catset.empty_store
    = (inr tt,
       World [Echo "Error: metadata file catset/metadata.json does not exist."]
             Catset.empty_store).
Proof.
  exact (missing_metadata_file_stops_the_run
           Catset.env_no_metadata Catset.flags Catset.empty_store eq_refl).
Defined.

(** Once the metadata document is loaded, the next thing the command does is
    the GET on the schema URL. *)
Lemma run_loaded (E : Env) (a : args) (s0 : store) sz metadata :
  fs E (metadata_path a) = Some (FFile sz (Some metadata)) ->
  run E a s0 =
    match http_get E (schema_url E a) with
    | HttpRaises e =>
        let w := World [HttpGet (schema_url E a)] s0 in
        if isinstance e ConnectionError then
          echo "Error: Failed to connect to server." w
        else if isinstance e HTTPError then
          echo ("Error: Cannot retrieve schema for dataclass " +:+ dataclass a +:+ " from the database.") w
        else (inl e, w)
    | HttpResponse status body =>
        let w := World [HttpGet (schema_url E a)] s0 in
        if ((400 <=? status) && (status <? 600))%Z then
          echo ("Error: Cannot retrieve schema for dataclass " +:+ dataclass a +:+ " from the database.") w
        else
          match body with
          | None => (inl (Exn JSONDecodeError "Expecting value"), w)
          | Some schema =>
              match jsonschema_validate E metadata schema with
              | Some e =>
                  if isinstance e ValidationError then
                    echo ("Error: metadata file " +:+ metadata_path a +:+ " does not match the schema.") w
                  else (inl e, w)
              | None =>
                  upload_and_announce E a metadata
                    (World [HttpGet (schema_url E a);
                            Echo ("Validated metadata file " +:+ metadata_path a +:+ " against the schema.")] s0)
              end
          end
    end.
Proof.
  intros H. unfold run, upload_dataset, os_path_exists, open_file.
  fold (metadata_path a). fold (schema_url E a). rewrite H.
  unfold requests_get, validate, raise_for_status, res_json, json_load.
  unfold mbind, M_bind, mret, M_ret, try_except, raise, echo, emit. simpl.
  destruct (http_get E (schema_url E a)) as [e|status body]; simpl.
  - by repeat case_match.
  - destruct ((400 <=? status) && (status <? 600))%Z; simpl; [done|].
    destruct body as [schema|]; simpl; [|done].
    destruct (jsonschema_validate E metadata schema) as [e|]; simpl; [|done].
    by repeat case_match.
Qed.

(** C5: when the validator rejects the metadata document the command echoes
    the does-not-match message and returns; its trace is the GET and that
    message, so no storage client is built, no bucket is looked up or
    created, no object is put, and the store is left as it was. *)
Theorem invalid_metadata_stops_before_storage
    (E : Env) (a : args) (s0 : store) sz metadata status schema e :
  fs E (metadata_path a) = Some (FFile sz (Some metadata)) ->
  http_get E (schema_url E a) = HttpResponse status (Some schema) ->
  ((400 <=? status) && (status <? 600))%Z = false ->
  jsonschema_validate E metadata schema = Some e ->
  isinstance e ValidationError = true ->
  run E a s0
    = (inr tt,
       World [ HttpGet (schema_url E a);
               Echo ("Error: metadata file " +:+ metadata_path a +:+ " does not match the schema.") ]
             s0).
Proof.
  intros Hfs Hget Hst Hval Hcls.
  rewrite (run_loaded _ _ _ _ _ Hfs), Hget, Hst, Hval, Hcls. reflexivity.
Qed.

Lemma invalid_metadata_stops_before_storage_witness :
  run Catset.env_invalid Catset.flags Catset.empty_store
    = (inr tt,
       World [ HttpGet "http://api/animals";
               Echo "Error: metadata file catset/metadata.json does not match the schema." ]
             Catset.empty_store).
Proof.
  exact (invalid_metadata_stops_before_storage
           Catset.env_invalid Catset.flags Catset.empty_store
           120%N Catset.metadata 200%Z Catset.schema
           (Exn ValidationError "[] is not of type 'object'")
           eq_refl eq_refl eq_refl eq_refl eq_refl).
Defined.

(** X1: when the GET on the schema URL fails with a connection error, the
    run returns after echoing the failed-to-connect message; its trace is
    the GET and that message, and the store is untouched. *)
Lemma connection_failure_stops_the_run
    (E : Env) (a : args) (s0 : store) sz metadata e :
  fs E (metadata_path a) = Some (FFile sz (Some metadata)) ->
  http_get E (schema_url E a) = HttpRaises e ->
  isinstance e ConnectionError = true ->
  run E a s0
    = (inr tt,
       World [ HttpGet (schema_url E a); Echo "Error: Failed to connect to server." ] s0).
Proof.
  intros Hfs Hget Hcls. rewrite (run_loaded _ _ _ _ _ Hfs), Hget. simpl.
  by rewrite Hcls.
Qed.

(** X2: a response with a status from 400 to 599 ends the run after the GET
    with the cannot-retrieve message, whatever its body; nothing is
    validated and the store is untouched. *)
Lemma error_status_stops_the_run
    (E : Env) (a : args) (s0 : store) sz metadata status body :
  fs E (metadata_path a) = Some (FFile sz (Some metadata)) ->
  http_get E (schema_url E a) = HttpResponse status body ->
  (400 <= status < 600)%Z ->
  run E a s0
    = (inr tt,
       World [ HttpGet (schema_url E a);
               Echo ("Error: Cannot retrieve schema for dataclass " +:+ dataclass a +:+ " from the database.") ]
             s0).
Proof.
  intros Hfs Hget Hst. rewrite (run_loaded _ _ _ _ _ Hfs), Hget.
  replace ((400 <=? status) && (status <? 600))%Z with true; [done|].
  symmetry. apply andb_true_iff. split; [apply Z.leb_le|apply Z.ltb_lt]; lia.
Qed.

Example unreachable_service_run :
  run Catset.env_unreachable Catset.flags Catset.empty_store
    = (inr tt,
       World [ HttpGet "http://api/animals"; Echo "Error: Failed to connect to server." ]
             Catset.empty_store).
Proof.
  exact (connection_failure_stops_the_run
           Catset.env_unreachable Catset.flags Catset.empty_store
           120%N Catset.metadata (Exn ConnectionError "Connection refused")
           eq_refl eq_refl eq_refl).
Defined.

Example status_404_run :
  run (Catset.env_status 404) Catset.flags Catset.empty_store
    = (inr tt,
       World [ HttpGet "http://api/animals";
               Echo "Error: Cannot retrieve schema for dataclass animals from the database." ]
             Catset.empty_store).
Proof.
  apply (error_status_stops_the_run
           (Catset.env_status 404) Catset.flags Catset.empty_store
           120%N Catset.metadata 404%Z (Some Catset.schema));
    [reflexivity | reflexivity | lia].
Defined.

(** C8: at status 300, which is not a 2xx status, the command does not stop
    with the cannot-retrieve message: it validates, uploads both files and
    publishes. *)
Theorem status_300_is_not_reported :
  let r := run (Catset.env_status 300) Catset.flags Catset.empty_store in
  r.1 = inr tt
  /\ filter (fun e => is_minio e || is_broker e = true) (trace r.2)
     = [ Minio (Minio_new (Some "minio:9000") (Some "ak") (Some "sk")) None;
         Minio (bucket_exists "catset") None;
         Minio (make_bucket "catset") None;
         Minio (put_object "catset" "catset/cat1.jpg" 1000) None;
         Minio (put_object "catset" "catset/cat2.png" 2000) None;
         Broker (BlockingConnection (Some "rabbit") (Some "5672") (Some "u") (Some "p")) None;
         Broker channel None;
         Broker (queue_declare (Some "q") true) None;
         Broker (basic_publish "" (Some "q")
                   (Json.dumps (PDict
                      [ ("files", PList
                           [ PDict [("image_path", PStr "cat1.jpg"); ("image_type", PStr "jpg"); ("bucket", PStr "catset")];
                             PDict [("image_path", PStr "cat2.png"); ("image_type", PStr "png"); ("bucket", PStr "catset")] ]);
                        ("dataset_name", PStr "catset");
                        ("dataset_details", PDict
                           [ ("name", PStr "catset"); ("bucket", PStr "catset");
                             ("date", PStr "2024-01-01"); ("size", PInt 3127);
                             ("filetype", PList [PStr "jpg"; PStr "png"]) ]) ]))
                   2) None;
         Broker connection_close None ]
  /\ filter (fun e => is_echo e = true) (trace r.2)
     = [ Echo "Validated metadata file catset/metadata.json against the schema.";
         Echo "Bucket catset created on MinIO server.";
         Echo "Successfully uploaded catset to catset on MinIO server.";
         Echo "Successfully sent metadata for catset to q on RabbitMQ server." ].
Proof. vm_compute. done. Qed.

(** ** Dictionaries *)

Lemma dict_get_set_eq k v d : Dict.get k (Dict.set k v d) = Some v.
Proof.
  induction d as [|[k' v'] d IH]; simpl.
  - by rewrite String.eqb_refl.
  - destruct (String.eqb k k') eqn:Hk; simpl; [by rewrite String.eqb_refl|].
    by rewrite Hk.
Qed.

Lemma dict_get_set_ne k k' v d :
  k' <> k -> Dict.get k' (Dict.set k v d) = Dict.get k' d.
Proof.
  intros Hne. induction d as [|[k0 v0] d IH]; simpl.
  - by rewrite (proj2 (String.eqb_neq k' k) Hne).
  - destruct (String.eqb_spec k k0) as [->|Hk0]; simpl.
    + by rewrite (proj2 (String.eqb_neq k' k0) Hne).
    + by rewrite IH.
Qed.

Lemma dict_set_set k v v' d : Dict.set k v' (Dict.set k v d) = Dict.set k v' d.
Proof.
  induction d as [|[k0 v0] d IH]; simpl.
  - by rewrite String.eqb_refl.
  - destruct (String.eqb k k0) eqn:Hk; simpl.
    + by rewrite String.eqb_refl.
    + by rewrite Hk, IH.
Qed.

Lemma dict_count_absent k d : k ∉ Dict.keys d -> Dict.count k d = 0.
Proof.
  unfold Dict.count, Dict.keys. induction d as [|[k0 v0] d IH]; [done|].
  rewrite fmap_cons, not_elem_of_cons. cbn [fst]. intros [Hne Hd].
  rewrite filter_cons_False; [by apply IH|].
  cbn [fst]. by rewrite (proj2 (String.eqb_neq k k0) Hne).
Qed.

Lemma dict_set_same k v d : Dict.get k d = Some v -> Dict.set k v d = d.
Proof.
  induction d as [|[k0 v0] d IH]; simpl; [done|].
  destruct (String.eqb_spec k k0) as [->|Hne].
  - by intros [= ->].
  - intros H. by rewrite IH.
Qed.

(** Setting a key leaves a dictionary with that key stored once. *)
Lemma dict_count_set k v d : Dict.wf d -> Dict.count k (Dict.set k v d) = 1.
Proof.
  unfold Dict.wf, Dict.keys. induction d as [|[k0 v0] d IH]; simpl.
  - intros _. unfold Dict.count. rewrite filter_cons_True; [done|].
    cbn [fst]. apply String.eqb_refl.
  - rewrite NoDup_cons. intros [Hk0 Hnd].
    destruct (String.eqb_spec k k0) as [->|Hne].
    + unfold Dict.count. rewrite filter_cons_True by (cbn [fst]; apply String.eqb_refl).
      cbn [length]. f_equal. by apply dict_count_absent.
    + unfold Dict.count. rewrite filter_cons_False.
      * by apply IH.
      * cbn [fst]. by rewrite (proj2 (String.eqb_neq k k0) Hne).
Qed.

(** ** The directory walk *)

Lemma fsnode_tree_ind (P : fsnode -> Prop) :
  (forall sz c, P (FFile sz c)) ->
  (forall entries, Forall (fun e => P (snd e)) entries -> P (FDir entries)) ->
  P FOther ->
  forall n, P n.
Proof.
  intros Hfile Hdir Hother. fix IH 1. intros [sz c|entries|].
  - apply Hfile.
  - apply Hdir. induction entries as [|e entries IHentries]; constructor.
    + apply IH.
    + apply IHentries.
  - apply Hother.
Qed.

Lemma sum_N_app l1 l2 : sum_N (l1 ++ l2) = (sum_N l1 + sum_N l2)%N.
Proof. unfold sum_N. induction l1 as [|x l1 IH]; simpl; [done|]. rewrite IH. lia. Qed.

(** Summing the sizes of the regular files that the glob produces below a
    node gives the bytes of the tree, counted by recursion. *)
Lemma glob_sum_tree_bytes n :
  sum_N (map st_size (filter (fun f => is_file f = true) (glob_all n)))
    = bytes_below n.
Proof.
  induction n as [sz c|entries IH|] using fsnode_tree_ind; [done| |done].
  unfold bytes_below. simpl.
  induction IH as [|[name child] entries Hchild _ IHentries]; [done|].
  cbn [flat_map map snd sum_N foldr app]. cbn [snd] in Hchild.
  fold (sum_N (map (fun e : string * fsnode => tree_bytes e.2) entries)).
  rewrite <- IHentries.
  destruct child as [sz c|sub|].
  - rewrite filter_cons_True by done. cbn [glob_all app map st_size sum_N foldr].
    reflexivity.
  - rewrite filter_cons_False by done.
    rewrite filter_app, map_app, sum_N_app, Hchild. reflexivity.
  - rewrite filter_cons_False by done. cbn [glob_all app tree_bytes]. lia.
Qed.

Lemma get_dataset_size_tree E path root :
  fs E path = Some root -> get_dataset_size E path = bytes_below root.
Proof.
  intros H. unfold get_dataset_size. rewrite H. apply glob_sum_tree_bytes.
Qed.

(** ** Computations that keep a relation on states *)

Section Preserves.

Context (R : relation world) `{!PreOrder R}.

Lemma preserves_same {A} (c : M A) :
  (forall w, (c w).2 = w) -> preserves R c.
Proof. intros H w. rewrite H. reflexivity. Qed.

Lemma preserves_ret {A} (x : A) : preserves R (mret x).
Proof. by apply preserves_same. Qed.

Lemma preserves_raise {A} (e : exn) : preserves R (@raise A e).
Proof. by apply preserves_same. Qed.

Lemma preserves_gets {A} (f : world -> A) : preserves R (gets f).
Proof. by apply preserves_same. Qed.

(** The rule for sequencing; [P] is what is known of the value passed on. *)
Lemma preserves_bind {A B} (P : A -> Prop) (c : M A) (f : A -> M B) :
  preserves R c ->
  (forall w x w1, c w = (inr x, w1) -> P x) ->
  (forall x, P x -> preserves R (f x)) ->
  preserves R (c ≫= f).
Proof.
  intros Hc HP Hf w. rewrite bind_run.
  specialize (Hc w). specialize (HP w).
  destruct (c w) as [[e|x] w1]; simpl in *; [done|].
  etrans; [exact Hc|]. apply Hf. by eapply HP.
Qed.

Lemma preserves_seq {A B} (c : M A) (f : A -> M B) :
  preserves R c -> (forall x, preserves R (f x)) -> preserves R (c ≫= f).
Proof. intros Hc Hf. apply (preserves_bind (fun _ => True)); auto. Qed.

Lemma preserves_try {A} (c : M A) : preserves R c -> preserves R (try_except c).
Proof. intros Hc w. rewrite try_run. apply Hc. Qed.

End Preserves.

(** The operations on values do not touch the state. *)

Lemma py_iter_same v w : (py_iter v w).2 = w.
Proof. by destruct v. Qed.

Lemma py_getitem_same v k w : (py_getitem v k w).2 = w.
Proof. destruct v; try done. simpl. by destruct (Dict.get k d). Qed.

Lemma py_setitem_same v k x w : (py_setitem v k x w).2 = w.
Proof. by destruct v. Qed.

Lemma os_path_join_val_same dir v w : (os_path_join_val dir v w).2 = w.
Proof. by destruct v. Qed.

Lemma set_add_same v s w : (set_add v s w).2 = w.
Proof. unfold set_add. destruct (hash_key v); [|done]. by case_match. Qed.

Lemma files_append_same r im w : (files_append r im w).2 = w.
Proof.
  unfold files_append. rewrite bind_run.
  pose proof (py_getitem_same (PDict im) "files" w) as H.
  destruct (py_getitem (PDict im) "files" w) as [[e|x] w1]; simpl in H; subst; [done|].
  by destruct x.
Qed.

Lemma open_file_same E path w : (open_file E path w).2 = w.
Proof. unfold open_file. by repeat case_match. Qed.

(** What a successful [open] tells about the path. *)
Lemma open_file_inv E path w f w1 :
  open_file E path w = (inr f, w1) ->
  fs E path = Some f /\ is_file f = true /\ w1 = w.
Proof.
  unfold open_file. destruct (fs E path) as [[sz c|es|]|]; try done.
  by intros [= <- <-].
Qed.

(** ** The upload step only adds to the world *)

#[global] Instance steps_preorder E : PreOrder (steps E).
Proof.
  split.
  - intros w. exists []. rewrite app_nil_r.
    split; [done|]. split; [done|]. split; [done|]. split; [done|].
    split; [|done]. by intros b k len H%elem_of_nil.
  - intros w1 w2 w3 (evs1 & Ht1 & Hb1 & Hbk1 & Hd1 & Hput1 & Hkeep1)
                    (evs2 & Ht2 & Hb2 & Hbk2 & Hd2 & Hput2 & Hkeep2).
    exists (evs1 ++ evs2).
    split; [by rewrite Ht2, Ht1, app_assoc|].
    split; [by apply Forall_app|].
    split; [by etrans|]. split; [by etrans|]. split.
    + intros b k len [H|H]%elem_of_app.
      * destruct (Hput1 b k len H) as [Hf Hw2]. split; [done|]. by apply Hkeep2.
      * by apply Hput2.
    + intros b k len Hf Hw1. by apply Hkeep2, Hkeep1.
Qed.

Section UploadSteps.

Variable E : Env.

Lemma steps_emit (e : event) :
  is_broker e = false -> is_minio e = false -> preserves (steps E) (emit e).
Proof.
  intros Hb Hm w. exists [e]. simpl.
  split; [done|]. split; [by apply Forall_singleton|].
  split; [done|]. split; [done|]. split; [|done].
  intros b k len H%list_elem_of_singleton. by subst e.
Qed.

Lemma steps_echo msg : preserves (steps E) (echo msg).
Proof. by apply steps_emit. Qed.

Lemma steps_logging_info msg : preserves (steps E) (logging_info msg).
Proof. by apply steps_emit. Qed.

Lemma steps_minio_call (op : minio_op) :
  (forall b k len, op = put_object b k len -> holds_file E k len) ->
  preserves (steps E) (minio_call E op).
Proof.
  intros Hop w. unfold minio_call.
  destruct (minio_fault E (minio w) op) as [e|]; simpl.
  - exists [Minio op (Some e)]. simpl.
    split; [done|]. split; [by apply Forall_singleton|].
    split; [done|]. split; [done|]. split; [|done].
    by intros b k len H%list_elem_of_singleton.
  - exists [Minio op None]. simpl.
    split; [done|]. split; [by apply Forall_singleton|].
    split; [destruct op; simpl; set_solver|].
    split; [destruct op; simpl; try set_solver; rewrite dom_insert; set_solver|].
    split.
    + intros b k len H%list_elem_of_singleton. injection H as <-.
      split; [by eapply Hop|]. simpl. apply lookup_insert_eq.
    + intros b k len Hf Hw. destruct op as [| | |b' k' len']; simpl; auto.
      destruct (decide ((b', k') = (b, k))) as [[= -> ->]|Hne].
      * rewrite lookup_insert_eq. f_equal.
        destruct (Hop b k len' eq_refl) as (f' & Hf' & _ & <-).
        destruct Hf as (f & Hf & _ & <-). congruence.
      * by rewrite lookup_insert_ne.
Qed.

Lemma steps_same {A} (c : M A) :
  (forall w, (c w).2 = w) -> preserves (steps E) c.
Proof. apply preserves_same, _. Qed.

Lemma steps_seq {A B} (c : M A) (f : A -> M B) :
  preserves (steps E) c -> (forall x, preserves (steps E) (f x)) ->
  preserves (steps E) (c ≫= f).
Proof. apply preserves_seq, _. Qed.

Lemma steps_client_bucket_exists b :
  preserves (steps E) (client_bucket_exists E b).
Proof.
  unfold client_bucket_exists. apply steps_seq.
  - by apply steps_minio_call.
  - intros _. by apply steps_same.
Qed.

Lemma steps_upload_files a b items :
  forall img_format im, preserves (steps E) (upload_files E a b items img_format im).
Proof.
  induction items as [|item rest IH]; intros img_format im; simpl.
  - by apply steps_same.
  - apply steps_seq; [apply steps_same, py_getitem_same|intros image_path].
    apply steps_seq; [apply steps_same, os_path_join_val_same|intros file_path].
    apply steps_seq; [apply steps_same, py_getitem_same|intros image_type].
    apply steps_seq; [apply steps_same, set_add_same|intros img_format'].
    apply (preserves_bind _ (fun f => fs E file_path = Some f /\ is_file f = true));
      [apply steps_same, open_file_same| |intros f [Hf Hfile]].
    { intros w f w1 H. by destruct (open_file_inv _ _ _ _ _ H) as (? & ? & _). }
    apply steps_seq; [apply steps_logging_info|intros _].
    apply steps_seq; [|intros _].
    { apply steps_minio_call. intros b' k len [= <- <- <-]. by exists f. }
    apply steps_seq; [apply steps_logging_info|intros _].
    apply steps_seq; [apply steps_same, py_setitem_same|intros item'].
    apply steps_seq; [apply steps_same, files_append_same|intros im'].
    apply IH.
Qed.

Lemma steps_upload_step a b metadata im :
  preserves (steps E) (upload_step E a b metadata im).
Proof.
  unfold upload_step.
  apply steps_seq; [apply steps_client_bucket_exists|intros found].
  apply steps_seq; [|intros _].
  { destruct found; [apply steps_echo|].
    apply steps_seq; [apply steps_logging_info|intros _].
    apply steps_seq; [by apply steps_minio_call|intros _].
    apply steps_echo. }
  apply steps_seq; [apply steps_logging_info|intros _].
  apply steps_seq; [apply steps_same, py_iter_same|intros items].
  apply steps_seq; [apply steps_upload_files|intros r].
  apply steps_seq; [apply steps_echo|intros _].
  by apply steps_same.
Qed.

End UploadSteps.

(** ** What the loop returns *)

Lemma py_getitem_inv v k w x w1 :
  py_getitem v k w = (inr x, w1) ->
  w1 = w /\ exists d, v = PDict d /\ Dict.get k d = Some x.
Proof.
  destruct v; try done. simpl.
  destruct (Dict.get k d) eqn:Hg; [|done]. intros [= <- <-]. eauto.
Qed.

Lemma os_path_join_val_inv dir v w p w1 :
  os_path_join_val dir v w = (inr p, w1) ->
  w1 = w /\ exists s, v = PStr s /\ p = PyStr.os_path_join dir s.
Proof. destruct v; try done. intros [= <- <-]. eauto. Qed.

Lemma files_append_inv r im w im' w1 :
  files_append r im w = (inr im', w1) ->
  w1 = w /\ exists l, Dict.get "files" im = Some (PList l)
                      /\ im' = Dict.set "files" (PList (l ++ [r])) im.
Proof.
  unfold files_append. intros (files & w2 & Hget & H)%bind_inr_inv.
  apply py_getitem_inv in Hget as (-> & d & [= <-] & Hget).
  destruct files; try done. injection H as <- <-. eauto.
Qed.

Lemma emit_run e w : emit e w = (inr tt, World (trace w ++ [e]) (minio w)).
Proof. reflexivity. Qed.

Lemma minio_call_inv E op w w1 :
  minio_call E op w = (inr tt, w1) ->
  trace w1 = trace w ++ [Minio op None].
Proof.
  unfold minio_call. destruct (minio_fault E (minio w) op); [done|].
  by intros [= <-].
Qed.

(** A loop that returns has put every item, in order: each item is a record
    with a textual image path naming a regular file, the put call for it
    returned, and the record with its bucket field set went to the end of
    the files list. *)
Lemma upload_files_returns E a b items :
  forall img_format im w img_format' im' w' l,
    upload_files E a b items img_format im w = (inr (img_format', im'), w') ->
    Dict.get "files" im = Some (PList l) ->
    exists out evs,
      im' = Dict.set "files" (PList (l ++ out)) im
      /\ trace w' = trace w ++ evs
      /\ Forall2 (uploaded E a b evs) items out.
Proof.
  induction items as [|item rest IH]; intros img_format im w img_format' im' w' l.
  - simpl. intros [= <- <- <-] Hl. exists [], [].
    rewrite !app_nil_r. split; [|by split].
    symmetry. by apply dict_set_same.
  - simpl. intros H Hl.
    apply bind_inr_inv in H as (image_path & w1 & Hpath & H).
    apply py_getitem_inv in Hpath as (-> & d & -> & Hpath).
    apply bind_inr_inv in H as (file_path & w1 & Hjoin & H).
    apply os_path_join_val_inv in Hjoin as (-> & p & -> & ->).
    apply bind_inr_inv in H as (image_type & w1 & Htype & H).
    apply py_getitem_inv in Htype as (-> & _).
    apply bind_inr_inv in H as (fmt1 & w1 & Hadd & H).
    pose proof (set_add_same image_type img_format w) as Hw. rewrite Hadd in Hw.
    simpl in Hw. subst w1.
    apply bind_inr_inv in H as (f & w1 & Hopen & H).
    apply open_file_inv in Hopen as (Hfs & Hfile & ->).
    apply bind_inr_inv in H as ([] & w1 & Hlog1 & H).
    cbv [logging_info emit] in Hlog1. injection Hlog1 as <-.
    apply bind_inr_inv in H as ([] & w2 & Hput & H).
    apply minio_call_inv in Hput. simpl in Hput.
    apply bind_inr_inv in H as ([] & w3 & Hlog2 & H).
    cbv [logging_info emit] in Hlog2. injection Hlog2 as <-.
    apply bind_inr_inv in H as (item' & w4 & Hset & H).
    simpl in Hset. injection Hset as <- <-.
    apply bind_inr_inv in H as (im1 & w4 & Happ & H).
    apply files_append_inv in Happ as (-> & l0 & Hl0 & ->).
    rewrite Hl in Hl0. injection Hl0 as <-.
    eapply IH in H as (out & evs & -> & Htr & Hall);
      [|apply dict_get_set_eq].
    simpl in Htr. rewrite Hput in Htr.
    eexists (_ :: out), _. split; [|split].
    + by rewrite dict_set_set, <- app_assoc.
    + rewrite Htr, <- !app_assoc. simpl. reflexivity.
    + constructor.
      * exists d, p, f. repeat (split; [done|]). set_solver.
      * eapply Forall2_impl; [exact Hall|].
        intros x y (d' & p' & f' & ? & ? & ? & ? & ? & Hin).
        exists d', p', f'. repeat (split; [done|]). set_solver.
Qed.

Lemma uploaded_weaken E a b evs evs' item r :
  evs ⊆ evs' -> uploaded E a b evs item r -> uploaded E a b evs' item r.
Proof.
  intros Hsub (d & p & f & ? & ? & ? & ? & ? & Hin).
  exists d, p, f. repeat (split; [done|]). by apply Hsub.
Qed.

(** ** What the upload step returns *)

(** When the body of the first [try] returns, the message has exactly the
    three fields files, dataset_name and dataset_details; the files are the
    items of the metadata document, in order, each uploaded and tagged with
    the bucket. *)
Lemma upload_step_returns E a b metadata w im w' :
  upload_step E a b metadata (Dict.set "files" (PList []) []) w = (inr im, w') ->
  exists items out img_format evs,
    (forall w0, py_iter metadata w0 = (inr items, w0))
    /\ im = [ ("files", PList out);
              ("dataset_name", PStr b);
              ("dataset_details", PDict
                 [ ("name", PStr (dir_path a));
                   ("bucket", PStr b);
                   ("date", PStr (today E));
                   ("size", PInt (Z.of_N (get_dataset_size E (dir_path a))));
                   ("filetype", PList img_format) ]) ]
    /\ trace w' = trace w ++ evs
    /\ Forall2 (uploaded E a b evs) items out.
Proof.
  unfold upload_step. intros H.
  rewrite bind_run in H.
  pose proof (steps_client_bucket_exists E b w) as (evs0 & Ht0 & _).
  destruct (client_bucket_exists E b w) as [[e|found] w1]; [done|]. simpl in Ht0.
  rewrite bind_run in H.
  match type of H with
  | context [match ?c w1 with _ => _ end] =>
      assert (steps E w1 (c w1).2) as (evs1 & Ht1 & _);
        [|destruct (c w1) as [[e|[]] w2]; [done|]]
  end.
  { destruct found; [apply steps_echo|].
    apply steps_seq; [apply steps_logging_info|intros _].
    apply steps_seq; [by apply steps_minio_call|intros _].
    apply steps_echo. }
  simpl in Ht1.
  apply bind_inr_inv in H as ([] & w3 & Hlog & H).
  cbv [logging_info emit] in Hlog. injection Hlog as <-.
  apply bind_inr_inv in H as (items & w3 & Hiter & H).
  assert (forall w0, py_iter metadata w0 = (inr items, w0)) as Hitems.
  { destruct metadata; try done; simpl in Hiter; injection Hiter as <- _; done. }
  rewrite Hitems in Hiter. injection Hiter as <-.
  apply bind_inr_inv in H as ([img_format im1] & w3 & Hloop & H).
  eapply upload_files_returns in Hloop as (out & evs2 & Him1 & Ht2 & Hall);
    [|reflexivity].
  simpl in H. subst im1.
  apply bind_inr_inv in H as ([] & w4 & Hecho & H).
  cbv [echo emit] in Hecho. injection Hecho as <-.
  injection H as <- <-.
  exists items, out, img_format. eexists.
  split; [done|]. split; [reflexivity|]. split.
  - simpl. rewrite Ht2. simpl. rewrite Ht1, Ht0, <- !app_assoc. reflexivity.
  - eapply Forall2_impl; [exact Hall|].
    intros x y. apply uploaded_weaken. set_solver.
Qed.

(** ** The announcer *)

Lemma announce_run E a im w :
  exists evs,
    announce E a im w = (inr tt, World (trace w ++ evs) (minio w))
    /\ broker_calls evs `prefix_of` announcer_calls a im
    /\ Forall (fun e => is_minio e = false /\ is_http e = false) evs.
Proof.
  unfold announce, broker_call, announcer_calls.
  unfold mbind, M_bind, mret, M_ret, try_except, raise, echo, emit.
  repeat match goal with
         | |- context [broker_fault E ?op] => destruct (broker_fault E op)
         end;
    cbn [trace minio]; rewrite <- ?app_assoc; cbn [app];
    (eexists; split; [reflexivity|]);
    (split; [eexists; reflexivity | repeat constructor]).
Qed.

Lemma announce_run_ok E a im w :
  (forall op, broker_fault E op = None) ->
  announce E a im w
    = (inr tt,
       World (trace w ++
                [ Broker (BlockingConnection (host a) (port a) (username a) (password a)) None;
                  Broker channel None;
                  Broker (queue_declare (queue a) true) None;
                  Broker (basic_publish "" (queue a) (Json.dumps (PDict im)) 2) None;
                  Echo ("Successfully sent metadata for " +:+ dir_path a +:+ " to "
                          +:+ fmt (queue a) +:+ " on RabbitMQ server.");
                  Broker connection_close None ])
             (minio w)).
Proof.
  intros Hok. unfold announce, broker_call. rewrite !Hok.
  unfold mbind, M_bind, mret, M_ret, try_except, raise, echo, emit.
  cbn [trace minio]. by rewrite <- !app_assoc.
Qed.

(** ** From validation to the announcer *)

Lemma upload_and_announce_run E a metadata w :
  upload_and_announce E a metadata w =
    match minio_fault E (minio w) (Minio_new (endpoint a) (access_key a) (secret_key a)) with
    | Some e =>
        (inl e,
         World (trace w ++ [Minio (Minio_new (endpoint a) (access_key a) (secret_key a)) (Some e)])
               (minio w))
    | None =>
        match upload_step E a (target_bucket a) metadata
                (Dict.set "files" (PList []) []) (client_ready a w) with
        | (inl err, w2) => echo ("Error uploading file: " +:+ exn_str err) w2
        | (inr im, w2) => announce E a im w2
        end
    end.
Proof.
  unfold upload_and_announce. fold (target_bucket a).
  rewrite bind_run. unfold minio_call at 1.
  destruct (minio_fault E (minio w) _) as [e|]; [done|].
  rewrite bind_run. cbv [logging_info emit]. cbn [trace minio store_apply].
  rewrite bind_run, try_run, <- app_assoc. cbn [app]. fold (client_ready a w).
  by destruct (upload_step E a (target_bucket a) metadata _ (client_ready a w)) as [[err|im] w2].
Qed.

Lemma broker_calls_elem op o evs : Broker op o ∈ evs -> op ∈ broker_calls evs.
Proof.
  intros H. unfold broker_calls. apply list_elem_of_omap. by exists (Broker op o).
Qed.

Ltac absurd_elem H :=
  repeat (apply elem_of_cons in H as [H|H]; [discriminate H|]);
  by apply elem_of_nil in H.

(** A publish call found in the trace of a run was made by the announcer,
    with the message that the upload step returned. *)
Lemma published_message E a s0 ex rk body dm o :
  Broker (basic_publish ex rk body dm) o ∈ trace (run E a s0).2 ->
  exists sz metadata w1 im w2 evs,
    fs E (metadata_path a) = Some (FFile sz (Some metadata))
    /\ upload_step E a (target_bucket a) metadata
         (Dict.set "files" (PList []) []) w1 = (inr im, w2)
    /\ Forall (fun e => is_broker e = false) (trace w1)
    /\ body = Json.dumps (PDict im) /\ ex = "" /\ rk = queue a /\ dm = 2%Z
    /\ (run E a s0).2 = World (trace w2 ++ evs) (minio w2)
    /\ Broker (basic_publish ex rk body dm) o ∈ evs.
Proof.
  intros H.
  destruct (fs E (metadata_path a)) as [[sz [metadata|]|es|]|] eqn:Hfs;
    try (exfalso; unfold run, upload_dataset, os_path_exists, open_file in H;
         fold (metadata_path a) in H; rewrite Hfs in H; simpl in H;
         absurd_elem H).
  rewrite (run_loaded _ _ _ _ _ Hfs) in H |- *.
  destruct (http_get E (schema_url E a)) as [e|status [schema|]].
  { exfalso. simpl in H. repeat case_match; simpl in H; absurd_elem H. }
  2:{ exfalso. simpl in H. repeat case_match; simpl in H; absurd_elem H. }
  cbv zeta in H |- *.
  destruct ((400 <=? status) && (status <? 600))%Z; [exfalso; simpl in H; absurd_elem H|].
  destruct (jsonschema_validate E metadata schema) as [e|].
  { exfalso. case_match; simpl in H; absurd_elem H. }
  rewrite upload_and_announce_run in H |- *. cbn [minio] in H |- *.
  destruct (minio_fault E s0 _) as [e|]; [exfalso; simpl in H; absurd_elem H|].
  set (w1 := client_ready a _) in *.
  assert (Forall (fun e => is_broker e = false) (trace w1)) as Hw1
    by (repeat constructor).
  pose proof (steps_upload_step E a (target_bucket a) metadata
                (Dict.set "files" (PList []) []) w1) as (evs & Ht & Hnb & _).
  destruct (upload_step E a (target_bucket a) metadata _ w1) as [[err|im] w2] eqn:Hup.
  - exfalso. cbn [snd] in Ht. cbv [echo emit] in H. cbn [snd trace] in H.
    rewrite Ht in H.
    apply elem_of_app in H as [[H|H]%elem_of_app|H].
    + by apply (proj1 (Forall_forall _ _) Hw1) in H.
    + by apply (proj1 (Forall_forall _ _) Hnb) in H.
    + absurd_elem H.
  - cbn [snd] in Ht.
    destruct (announce_run E a im w2) as (evs' & Hann & Hpre & _).
    rewrite Hann in H |- *. cbn [snd trace] in H.
    rewrite Ht in H.
    apply elem_of_app in H as [[H|H]%elem_of_app|H].
    + exfalso. by apply (proj1 (Forall_forall _ _) Hw1) in H.
    + exfalso. by apply (proj1 (Forall_forall _ _) Hnb) in H.
    + exists sz, metadata, w1, im, w2, evs'.
      pose proof (broker_calls_elem _ _ _ H) as Hop.
      destruct Hpre as [rest Hpre]. 
      assert (basic_publish ex rk body dm ∈ announcer_calls a im) as Hin
        by (rewrite Hpre; set_solver).
      unfold announcer_calls in Hin.
      repeat (apply elem_of_cons in Hin as [Hin|Hin]; [try discriminate Hin|]);
        [|by apply elem_of_nil in Hin].
      injection Hin as -> -> -> ->. done.
Qed.

(** ** A run in which nothing fails publishes *)

Lemma set_add_succeeds t s w :
  is_Some (hash_key t) -> exists s', set_add t s w = (inr s', w).
Proof.
  intros [k Hk]. unfold set_add. rewrite Hk. case_match; eauto.
Qed.

Lemma upload_files_succeeds E a b items :
  (forall s op, minio_fault E s op = None) ->
  Forall (uploadable E a) items ->
  forall img_format im w l,
    Dict.get "files" im = Some (PList l) ->
    exists r w', upload_files E a b items img_format im w = (inr r, w').
Proof.
  intros Hok Hall. induction Hall as [|item rest Hitem _ IH];
    intros img_format im w l Hl; [by eexists _, _|].
  destruct Hitem as (d & p & t & f & -> & Hpath & Htype & Hhash & Hfs & Hfile).
  destruct (set_add_succeeds t img_format w Hhash) as [fmt1 Hadd].
  cbn [upload_files].
  erewrite bind_inr by (cbn [py_getitem]; rewrite Hpath; reflexivity).
  erewrite bind_inr by reflexivity.
  erewrite bind_inr by (cbn [py_getitem]; rewrite Htype; reflexivity).
  erewrite bind_inr by exact Hadd.
  erewrite bind_inr
    by (unfold open_file; rewrite Hfs; destruct f; try done; reflexivity).
  erewrite bind_inr by reflexivity.
  erewrite bind_inr by (unfold minio_call; rewrite Hok; reflexivity).
  erewrite bind_inr by reflexivity.
  erewrite bind_inr by reflexivity.
  erewrite bind_inr
    by (unfold files_append; erewrite bind_inr
          by (cbn [py_getitem]; rewrite Hl; reflexivity); reflexivity).
  eapply IH. apply dict_get_set_eq.
Qed.

Lemma upload_step_succeeds E a b records w :
  (forall s op, minio_fault E s op = None) ->
  Forall (uploadable E a) records ->
  exists im w',
    upload_step E a b (PList records) (Dict.set "files" (PList []) []) w = (inr im, w').
Proof.
  intros Hok Hall. unfold upload_step, client_bucket_exists.
  pose proof (fun w0 => upload_files_succeeds E a b records Hok Hall []
                          (Dict.set "files" (PList []) []) w0 [] eq_refl) as Hloop.
  erewrite bind_inr
    by (erewrite bind_inr by (unfold minio_call; rewrite Hok; reflexivity);
        reflexivity).
  match goal with
  | |- context [bool_decide ?P] => destruct (bool_decide P)
  end.
  - erewrite bind_inr by reflexivity.
    erewrite bind_inr by reflexivity.
    erewrite bind_inr by reflexivity.
    match goal with
    | |- context [(upload_files _ _ _ _ _ _ ≫= _) ?w0] =>
        destruct (Hloop w0) as (r & w' & Hr)
    end.
    erewrite bind_inr by exact Hr.
    erewrite bind_inr by reflexivity. by eexists _, _.
  - erewrite bind_inr
      by (erewrite bind_inr by reflexivity;
          erewrite bind_inr by (unfold minio_call; rewrite Hok; reflexivity);
          reflexivity).
    erewrite bind_inr by reflexivity.
    erewrite bind_inr by reflexivity.
    match goal with
    | |- context [(upload_files _ _ _ _ _ _ ≫= _) ?w0] =>
        destruct (Hloop w0) as (r & w' & Hr)
    end.
    erewrite bind_inr by exact Hr.
    erewrite bind_inr by reflexivity. by eexists _, _.
Qed.

(** When the document is a list of uploadable records, the schema is
    fetched, the document validates and neither the store nor the broker
    raises, the run returns and its trace holds a publish call. *)
Lemma successful_run_publishes E a s0 sz records status schema :
  fs E (metadata_path a) = Some (FFile sz (Some (PList records))) ->
  http_get E (schema_url E a) = HttpResponse status (Some schema) ->
  ((400 <=? status) && (status <? 600))%Z = false ->
  jsonschema_validate E (PList records) schema = None ->
  (forall s op, minio_fault E s op = None) ->
  (forall op, broker_fault E op = None) ->
  Forall (uploadable E a) records ->
  (run E a s0).1 = inr tt
  /\ exists im,
       Broker (basic_publish "" (queue a) (Json.dumps (PDict im)) 2) None
         ∈ trace (run E a s0).2.
Proof.
  intros Hfs Hget Hst Hval Hminio Hbroker Hall.
  rewrite (run_loaded _ _ _ _ _ Hfs), Hget. cbv zeta. rewrite Hst, Hval.
  rewrite upload_and_announce_run, Hminio.
  edestruct (upload_step_succeeds E a (target_bucket a) records) as (im & w' & ->);
    [done..|].
  rewrite (announce_run_ok _ _ _ _ Hbroker). split; [done|].
  exists im. cbn [snd trace]. set_solver.
Qed.

(** ** The outbound message *)

Lemma Forall2_Forall_right {A B} (P : A -> B -> Prop) (Q : B -> Prop) l k :
  Forall2 P l k -> (forall x y, P x y -> Q y) -> Forall Q k.
Proof. intros H HPQ. induction H; constructor; eauto. Qed.

(** C1: whenever a run publishes, the body is the serialisation of a message
    whose files are all records that were uploaded: each has its bucket
    field set to the target bucket, its image path names a regular file,
    the put call for that file into that bucket returned before the publish
    call was made, and the object is in the store when the run ends. *)
Theorem published_records_were_uploaded
    (E : Env) (a : args) (s0 : store) ex rk body dm o :
  Broker (basic_publish ex rk body dm) o ∈ trace (run E a s0).2 ->
  exists im files before after,
    body = Json.dumps (PDict im)
    /\ Dict.get "files" im = Some (PList files)
    /\ trace (run E a s0).2 = before ++ after
    /\ Broker (basic_publish ex rk body dm) o ∈ after
    /\ Forall (fun r => exists d p len,
         r = PDict d
         /\ Dict.get "image_path" d = Some (PStr p)
         /\ Dict.get "bucket" d = Some (PStr (target_bucket a))
         /\ holds_file E (PyStr.os_path_join (dir_path a) p) len
         /\ Minio (put_object (target_bucket a) (PyStr.os_path_join (dir_path a) p) len) None
              ∈ before
         /\ objects (minio (run E a s0).2)
              !! (target_bucket a, PyStr.os_path_join (dir_path a) p) = Some len) files.
Proof.
  intros H.
  destruct (published_message _ _ _ _ _ _ _ _ H)
    as (sz & metadata & w1 & im & w2 & evs & Hfs & Hup & Hw1 & -> & -> & -> & -> & Hrun & Hin).
  destruct (upload_step_returns _ _ _ _ _ _ _ Hup)
    as (items & out & img_format & evs_up & Hitems & -> & Ht & Hall).
  pose proof (steps_upload_step E a (target_bucket a) metadata
                (Dict.set "files" (PList []) []) w1) as Hsteps.
  rewrite Hup in Hsteps. destruct Hsteps as (evs' & Ht' & _ & _ & _ & Hput & _).
  cbn [snd] in Ht', Hput. rewrite Ht in Ht'. apply app_inv_head in Ht' as <-.
  eexists _, out, (trace w2), evs. rewrite Hrun. cbn [trace minio].
  split; [done|]. split; [done|]. split; [done|]. split; [done|].
  eapply Forall2_Forall_right; [exact Hall|].
  intros item r (d & p & f & -> & -> & Hpath & Hf & Hfile & Hev).
  destruct (Hput _ _ _ Hev) as [Hholds Hobj].
  exists (Dict.set "bucket" (PStr (target_bucket a)) d), p, (st_size f).
  split; [done|]. split; [by rewrite dict_get_set_ne|].
  split; [apply dict_get_set_eq|]. split; [done|]. split; [|done].
  rewrite Ht. apply elem_of_app. by right.
Qed.

Lemma published_records_were_uploaded_witness :
  exists im files before after,
    Json.dumps (PDict Catset.message) = Json.dumps (PDict im)
    /\ Dict.get "files" im = Some (PList files)
    /\ trace (run Catset.env Catset.flags Catset.empty_store).2 = before ++ after
    /\ Broker (basic_publish "" (Some "q") (Json.dumps (PDict Catset.message)) 2) None ∈ after
    /\ Forall (fun r => exists d p len,
         r = PDict d
         /\ Dict.get "image_path" d = Some (PStr p)
         /\ Dict.get "bucket" d = Some (PStr (target_bucket Catset.flags))
         /\ holds_file Catset.env (PyStr.os_path_join (dir_path Catset.flags) p) len
         /\ Minio (put_object (target_bucket Catset.flags)
                     (PyStr.os_path_join (dir_path Catset.flags) p) len) None ∈ before
         /\ objects (minio (run Catset.env Catset.flags Catset.empty_store).2)
              !! (target_bucket Catset.flags, PyStr.os_path_join (dir_path Catset.flags) p)
            = Some len) files.
Proof.
  apply (published_records_were_uploaded Catset.env Catset.flags Catset.empty_store).
  vm_compute. repeat constructor.
Defined.

(** C2: for a metadata document that is a list of records, the files of
    every message a run publishes are the records of the document, as many
    and in the same order, each with its bucket field set, one bucket field
    per record and every other field unchanged; and when the document
    validates and no upload fails, the run does publish. *)
Theorem published_files_mirror_metadata
    (E : Env) (a : args) (s0 : store) sz records :
  fs E (metadata_path a) = Some (FFile sz (Some (PList records))) ->
  (forall d, PDict d ∈ records -> Dict.wf d) ->
  (forall ex rk body dm o,
     Broker (basic_publish ex rk body dm) o ∈ trace (run E a s0).2 ->
     exists im files,
       body = Json.dumps (PDict im)
       /\ Dict.get "files" im = Some (PList files)
       /\ length files = length records
       /\ Forall2 (tagged (target_bucket a)) records files)
  /\ (forall status schema,
        http_get E (schema_url E a) = HttpResponse status (Some schema) ->
        ((400 <=? status) && (status <? 600))%Z = false ->
        jsonschema_validate E (PList records) schema = None ->
        (forall s op, minio_fault E s op = None) ->
        (forall op, broker_fault E op = None) ->
        Forall (uploadable E a) records ->
        (run E a s0).1 = inr tt
        /\ exists im,
             Broker (basic_publish "" (queue a) (Json.dumps (PDict im)) 2) None
               ∈ trace (run E a s0).2).
Proof.
  intros Hfs Hwf. split.
  - intros ex rk body dm o H.
    destruct (published_message _ _ _ _ _ _ _ _ H)
      as (sz' & metadata & w1 & im & w2 & evs & Hfs' & Hup & _ & -> & _).
    rewrite Hfs in Hfs'. injection Hfs' as _ <-.
    destruct (upload_step_returns _ _ _ _ _ _ _ Hup)
      as (items & out & img_format & evs_up & Hitems & -> & _ & Hall).
    specialize (Hitems w1). injection Hitems as <-.
    eexists _, out. split; [done|]. split; [done|].
    split; [symmetry; by eapply Forall2_length|].
    clear -Hall Hwf. induction Hall as [|item r items out Hitem _ IH]; constructor.
    + destruct Hitem as (d & p & f & -> & -> & _).
      exists d. split; [done|]. split; [done|].
      split; [apply dict_count_set, Hwf; set_solver|].
      split; [apply dict_get_set_eq|]. intros k Hk. by apply dict_get_set_ne.
    + apply IH. intros d Hd. apply Hwf. set_solver.
  - intros status schema. by apply (successful_run_publishes _ _ _ sz).
Qed.

Lemma published_files_mirror_metadata_witness :
  (exists im files,
     Json.dumps (PDict Catset.message) = Json.dumps (PDict im)
     /\ Dict.get "files" im = Some (PList files)
     /\ length files = length Catset.records
     /\ Forall2 (tagged (target_bucket Catset.flags)) Catset.records files)
  /\ (run Catset.env Catset.flags Catset.empty_store).1 = inr tt
  /\ exists im,
       Broker (basic_publish "" (queue Catset.flags) (Json.dumps (PDict im)) 2) None
         ∈ trace (run Catset.env Catset.flags Catset.empty_store).2.
Proof.
  destruct (published_files_mirror_metadata
              Catset.env Catset.flags Catset.empty_store 120%N Catset.records)
    as [Hmsg Hrun].
  - reflexivity.
  - intros d Hd. unfold Dict.wf.
    apply elem_of_cons in Hd as [Hd|Hd];
      [|apply elem_of_cons in Hd as [Hd|Hd]; [|by apply elem_of_nil in Hd]];
      injection Hd as ->; vm_compute; repeat constructor;
      intros Hin; repeat (apply elem_of_cons in Hin as [Hin|Hin]; [discriminate Hin|]);
      by apply elem_of_nil in Hin.
  - split.
    + apply (Hmsg "" (Some "q") _ 2%Z None). vm_compute. repeat constructor.
    + apply (Hrun 200%Z Catset.schema); try reflexivity.
      repeat constructor.
      * eexists _, "cat1.jpg", (PStr "jpg"), _.
        repeat split; try reflexivity. by eexists.
      * eexists _, "cat2.png", (PStr "png"), _.
        repeat split; try reflexivity. by eexists.
Defined.

(** C4: in every message a run publishes, dataset_details.size is what
    [get_dataset_size] computes for the dataset directory, which is the
    total of the bytes of the regular files of the tree below that
    directory; the metadata document plays no part in it. *)
Theorem dataset_size_is_tree_total
    (E : Env) (a : args) (s0 : store) ex rk body dm o :
  Broker (basic_publish ex rk body dm) o ∈ trace (run E a s0).2 ->
  exists im details,
    body = Json.dumps (PDict im)
    /\ Dict.get "dataset_details" im = Some (PDict details)
    /\ Dict.get "size" details = Some (PInt (Z.of_N (get_dataset_size E (dir_path a))))
    /\ get_dataset_size E (dir_path a)
       = match fs E (dir_path a) with
         | Some root => bytes_below root
         | None => 0%N
         end.
Proof.
  intros H.
  destruct (published_message _ _ _ _ _ _ _ _ H)
    as (sz & metadata & w1 & im & w2 & evs & _ & Hup & _ & -> & _).
  destruct (upload_step_returns _ _ _ _ _ _ _ Hup)
    as (items & out & img_format & evs_up & _ & -> & _).
  eexists _, _. split; [done|]. split; [reflexivity|]. split; [reflexivity|].
  destruct (fs E (dir_path a)) as [root|] eqn:Hroot.
  - by apply get_dataset_size_tree.
  - unfold get_dataset_size. by rewrite Hroot.
Qed.

Lemma dataset_size_is_tree_total_witness :
  exists im details,
    Json.dumps (PDict Catset.message) = Json.dumps (PDict im)
    /\ Dict.get "dataset_details" im = Some (PDict details)
    /\ Dict.get "size" details
       = Some (PInt (Z.of_N (get_dataset_size Catset.env (dir_path Catset.flags))))
    /\ get_dataset_size Catset.env (dir_path Catset.flags)
       = match fs Catset.env (dir_path Catset.flags) with
         | Some root => bytes_below root
         | None => 0%N
         end.
Proof.
  apply (dataset_size_is_tree_total Catset.env Catset.flags Catset.empty_store
           "" (Some "q") _ 2%Z None).
  vm_compute. repeat constructor.
Defined.

Example catset_size :
  get_dataset_size Catset.env "catset" = 3127%N
  /\ bytes_below Catset.root = 3127%N.
Proof. split; reflexivity. Qed.

(** ** A failed upload *)

(** C7: when the body of the first [try] raises, be it in the bucket
    look-up, the bucket creation or the upload of a file, the command echoes
    the error-uploading message with the text of the exception and returns;
    nothing was sent to the broker; every object put before the failure is
    in the store, and nothing that was in the store has left it. *)
Theorem upload_failure_is_reported
    (E : Env) (a : args) (metadata : pyval) (w : world) err w2 :
  minio_fault E (minio w) (Minio_new (endpoint a) (access_key a) (secret_key a)) = None ->
  upload_step E a (target_bucket a) metadata
    (Dict.set "files" (PList []) []) (client_ready a w) = (inl err, w2) ->
  upload_and_announce E a metadata w
    = (inr tt, World (trace w2 ++ [Echo ("Error uploading file: " +:+ exn_str err)]) (minio w2))
  /\ exists evs,
       trace w2 = trace (client_ready a w) ++ evs
       /\ Forall (fun e => is_broker e = false) evs
       /\ (forall b k len, Minio (put_object b k len) None ∈ evs ->
             objects (minio w2) !! (b, k) = Some len)
       /\ dom (objects (minio w)) ⊆ dom (objects (minio w2))
       /\ buckets (minio w) ⊆ buckets (minio w2).
Proof.
  intros Hnew Hup. split.
  - by rewrite upload_and_announce_run, Hnew, Hup.
  - pose proof (steps_upload_step E a (target_bucket a) metadata
                  (Dict.set "files" (PList []) []) (client_ready a w)) as Hsteps.
    rewrite Hup in Hsteps.
    destruct Hsteps as (evs & Ht & Hnb & Hbk & Hdom & Hput & _).
    exists evs. split; [done|]. split; [done|].
    split; [intros b k len Hin; by destruct (Hput b k len Hin)|].
    by split.
Qed.

Lemma upload_failure_is_reported_witness :
  exists w2,
    upload_and_announce Catset.env_second_put_fails Catset.flags Catset.metadata
      (World [] Catset.empty_store)
    = (inr tt,
       World (trace w2 ++ [Echo "Error uploading file: S3 operation failed"]) (minio w2))
    /\ Forall (fun e => is_broker e = false) (trace w2)
    /\ objects (minio w2) !! ("catset", "catset/cat1.jpg") = Some 1000%N.
Proof.
  set (r := upload_step Catset.env_second_put_fails Catset.flags
              (target_bucket Catset.flags) Catset.metadata
              (Dict.set "files" (PList []) [])
              (client_ready Catset.flags (World [] Catset.empty_store))).
  assert (r = (inl (Exn StorageError "S3 operation failed"), r.2)) as Hr
    by (vm_compute; reflexivity).
  destruct (upload_failure_is_reported
              Catset.env_second_put_fails Catset.flags Catset.metadata
              (World [] Catset.empty_store) _ _ eq_refl Hr)
    as (Hrun & evs & Ht & Hnb & Hput & _).
  exists r.2. split; [exact Hrun|]. split.
  - rewrite Ht. apply Forall_app. split; [repeat constructor|exact Hnb].
  - apply Hput.
    assert (evs = drop 2 (trace r.2)) as ->
      by (rewrite Ht; reflexivity).
    vm_compute. repeat constructor.
Defined.

(** A bucket look-up that raises makes the body of the [try] raise. *)
Lemma bucket_exists_failure_raises E a b metadata im w e :
  minio_fault E (minio w) (bucket_exists b) = Some e ->
  upload_step E a b metadata im w
    = (inl e, World (trace w ++ [Minio (bucket_exists b) (Some e)]) (minio w)).
Proof.
  intros H. unfold upload_step, client_bucket_exists.
  erewrite bind_inl; [done|].
  erewrite bind_inl; [done|]. unfold minio_call. by rewrite H.
Qed.

(** *** Storage failures reach the handler *)

Lemma surfaces_same {A} (c : M A) : (forall w, (c w).2 = w) -> surfaces c.
Proof.
  intros H w. exists []. rewrite H, app_nil_r. split; [done|].
  destruct (c w).1 as [err|y]; [|done]. by intros ev x Hin%elem_of_nil.
Qed.

Lemma surfaces_emit ev : minio_raised ev = None -> surfaces (emit ev).
Proof. intros He w. exists [ev]. split; [done|]. by apply Forall_singleton. Qed.

Lemma surfaces_minio_call E op : surfaces (minio_call E op).
Proof.
  intros w. unfold minio_call.
  destruct (minio_fault E (minio w) op) as [err|]; simpl.
  - exists [Minio op (Some err)]. split; [done|].
    intros e x ->%list_elem_of_singleton. simpl. by intros [= ->].
  - exists [Minio op None]. split; [done|]. by apply Forall_singleton.
Qed.

Lemma surfaces_bind {A B} (c : M A) (f : A -> M B) :
  surfaces c -> (forall x, surfaces (f x)) -> surfaces (c ≫= f).
Proof.
  intros Hc Hf w. rewrite bind_run.
  destruct (Hc w) as (evs1 & Ht1 & H1).
  destruct (c w) as [[err|x] w1]; simpl in *; [by exists evs1|].
  destruct (Hf x w1) as (evs2 & Ht2 & H2).
  exists (evs1 ++ evs2). split; [by rewrite Ht2, Ht1, app_assoc|].
  destruct (f x w1).1 as [err|y].
  - intros e z [Hin|Hin]%elem_of_app Hz; [|by eapply H2].
    apply (proj1 (Forall_forall _ _) H1) in Hin. congruence.
  - by apply Forall_app.
Qed.

Lemma surfaces_upload_files E a b items :
  forall img_format im, surfaces (upload_files E a b items img_format im).
Proof.
  induction items as [|item rest IH]; intros img_format im; simpl.
  - by apply surfaces_same.
  - apply surfaces_bind; [apply surfaces_same, py_getitem_same|intros image_path].
    apply surfaces_bind; [apply surfaces_same, os_path_join_val_same|intros file_path].
    apply surfaces_bind; [apply surfaces_same, py_getitem_same|intros image_type].
    apply surfaces_bind; [apply surfaces_same, set_add_same|intros img_format'].
    apply surfaces_bind; [apply surfaces_same, open_file_same|intros f].
    apply surfaces_bind; [by apply surfaces_emit|intros _].
    apply surfaces_bind; [apply surfaces_minio_call|intros _].
    apply surfaces_bind; [by apply surfaces_emit|intros _].
    apply surfaces_bind; [apply surfaces_same, py_setitem_same|intros item'].
    apply surfaces_bind; [apply surfaces_same, files_append_same|intros im'].
    apply IH.
Qed.

Lemma surfaces_upload_step E a b metadata im :
  surfaces (upload_step E a b metadata im).
Proof.
  unfold upload_step, client_bucket_exists.
  apply surfaces_bind; [|intros found].
  { apply surfaces_bind; [apply surfaces_minio_call|intros _].
    by apply surfaces_same. }
  apply surfaces_bind; [|intros _].
  { destruct found; [by apply surfaces_emit|].
    apply surfaces_bind; [by apply surfaces_emit|intros _].
    apply surfaces_bind; [apply surfaces_minio_call|intros _].
    by apply surfaces_emit. }
  apply surfaces_bind; [by apply surfaces_emit|intros _].
  apply surfaces_bind; [apply surfaces_same, py_iter_same|intros items].
  apply surfaces_bind; [apply surfaces_upload_files|intros r].
  apply surfaces_bind; [by apply surfaces_emit|intros _].
  by apply surfaces_same.
Qed.

(** Whichever storage call of the [try] body raises (the bucket look-up,
    the bucket creation or the put of any file), the command reports that
    exception and returns. *)
Lemma storage_failure_is_reported E a metadata w op x :
  minio_fault E (minio w) (Minio_new (endpoint a) (access_key a) (secret_key a)) = None ->
  let r := upload_step E a (target_bucket a) metadata
             (Dict.set "files" (PList []) []) (client_ready a w) in
  Minio op (Some x) ∈ drop (length (trace (client_ready a w))) (trace r.2) ->
  upload_and_announce E a metadata w
    = (inr tt, World (trace r.2 ++ [Echo ("Error uploading file: " +:+ exn_str x)]) (minio r.2)).
Proof.
  intros Hnew r Hin.
  destruct (surfaces_upload_step E a (target_bucket a) metadata
              (Dict.set "files" (PList []) []) (client_ready a w)) as (evs & Ht & Hres).
  fold r in Ht, Hres. rewrite Ht, drop_app_length in Hin.
  rewrite upload_and_announce_run, Hnew. fold r.
  destruct r as [[err|im] w2]; simpl in *.
  - by rewrite (Hres _ x Hin eq_refl).
  - by apply (proj1 (Forall_forall _ _) Hres) in Hin.
Qed.

(** ** The announcer's contract *)

(** C9: after an upload that returned the message, the command hands that
    very message to the announcer; it has the three fields files,
    dataset_name and dataset_details, and dataset_name is the bucket.  The
    announcer's broker calls are an initial part of: connect, open a
    channel, declare the queue durable, publish the serialised message to
    the queue with delivery mode 2, close; when no broker call raises they
    are all made, in that order, so that one message is published. *)
Theorem announcer_contract
    (E : Env) (a : args) (metadata : pyval) (w : world) im w2 :
  minio_fault E (minio w) (Minio_new (endpoint a) (access_key a) (secret_key a)) = None ->
  upload_step E a (target_bucket a) metadata
    (Dict.set "files" (PList []) []) (client_ready a w) = (inr im, w2) ->
  upload_and_announce E a metadata w = announce E a im w2
  /\ Dict.keys im = ["files"; "dataset_name"; "dataset_details"]
  /\ Dict.get "dataset_name" im = Some (PStr (target_bucket a))
  /\ (exists evs,
        announce E a im w2 = (inr tt, World (trace w2 ++ evs) (minio w2))
        /\ broker_calls evs `prefix_of` announcer_calls a im)
  /\ ((forall op, broker_fault E op = None) ->
      announce E a im w2
        = (inr tt,
           World (trace w2 ++
                    [ Broker (BlockingConnection (host a) (port a) (username a) (password a)) None;
                      Broker channel None;
                      Broker (queue_declare (queue a) true) None;
                      Broker (basic_publish "" (queue a) (Json.dumps (PDict im)) 2) None;
                      Echo ("Successfully sent metadata for " +:+ dir_path a +:+ " to "
                              +:+ fmt (queue a) +:+ " on RabbitMQ server.");
                      Broker connection_close None ])
                 (minio w2))).
Proof.
  intros Hnew Hup.
  split; [by rewrite upload_and_announce_run, Hnew, Hup|].
  destruct (upload_step_returns _ _ _ _ _ _ _ Hup)
    as (items & out & img_format & evs_up & _ & -> & _).
  split; [reflexivity|]. split; [reflexivity|]. split.
  - match goal with
    | |- context [announce E a ?im w2] =>
        destruct (announce_run E a im w2) as (evs & Hann & Hpre & _)
    end.
    by exists evs.
  - apply announce_run_ok.
Qed.

Lemma announcer_contract_witness :
  exists w2,
    upload_and_announce Catset.env Catset.flags Catset.metadata (World [] Catset.empty_store)
    = (inr tt,
       World (trace w2 ++
                [ Broker (BlockingConnection (Some "rabbit") (Some "5672") (Some "u") (Some "p")) None;
                  Broker channel None;
                  Broker (queue_declare (Some "q") true) None;
                  Broker (basic_publish "" (Some "q") (Json.dumps (PDict Catset.message)) 2) None;
                  Echo "Successfully sent metadata for catset to q on RabbitMQ server.";
                  Broker connection_close None ])
             (minio w2)).
Proof.
  set (r := upload_step Catset.env Catset.flags
              (target_bucket Catset.flags) Catset.metadata
              (Dict.set "files" (PList []) [])
              (client_ready Catset.flags (World [] Catset.empty_store))).
  assert (r = (inr Catset.message, r.2)) as Hr by (vm_compute; reflexivity).
  destruct (announcer_contract Catset.env Catset.flags Catset.metadata
              (World [] Catset.empty_store) _ _ eq_refl Hr)
    as (Hrun & _ & _ & _ & Hok).
  exists r.2. rewrite Hrun. exact (Hok (fun _ => eq_refl)).
Defined.


(** * Further properties of the command *)

(** ** Exceptions that escape *)

(** X3: when the metadata path exists but does not hold a regular file with
    a JSON text, loading it raises, nothing catches the exception, and
    nothing else has happened: the trace is empty and the store untouched. *)
Theorem unloadable_metadata_raises (E : Env) (a : args) (s0 : store) n :
  fs E (metadata_path a) = Some n ->
  (forall sz doc, n <> FFile sz (Some doc)) ->
  exists e, run E a s0 = (inl e, World [] s0).
Proof.
  intros Hfs Hn. unfold run, upload_dataset, os_path_exists, open_file.
  fold (metadata_path a). rewrite Hfs.
  destruct n as [sz [doc|]|entries|]; [by destruct (Hn sz doc)|by eexists..].
Qed.

Lemma unloadable_metadata_raises_witness :
  exists e, run Cases.env_malformed Catset.flags Catset.empty_store
            = (inl e, World [] Catset.empty_store).
Proof.
  apply (unloadable_metadata_raises Cases.env_malformed Catset.flags
           Catset.empty_store (FFile 11 None)); [reflexivity|discriminate].
Defined.

(** X4: an exception of the GET that is neither a connection error nor an
    HTTP error is not handled: the run raises it, with the GET as its only
    event. *)
Theorem other_request_exception_escapes
    (E : Env) (a : args) (s0 : store) sz metadata e :
  fs E (metadata_path a) = Some (FFile sz (Some metadata)) ->
  http_get E (schema_url E a) = HttpRaises e ->
  isinstance e ConnectionError = false ->
  isinstance e HTTPError = false ->
  run E a s0 = (inl e, World [HttpGet (schema_url E a)] s0).
Proof.
  intros Hfs Hget Hc Hh. rewrite (run_loaded _ _ _ _ _ Hfs), Hget.
  cbv zeta. by rewrite Hc, Hh.
Qed.

Lemma other_request_exception_escapes_witness :
  run Cases.env_no_api Catset.flags Catset.empty_store
    = (inl (Exn RequestException "Invalid URL 'None/animals': No scheme supplied."),
       World [HttpGet "None/animals"] Catset.empty_store).
Proof.
  exact (other_request_exception_escapes Cases.env_no_api Catset.flags
           Catset.empty_store 120%N Catset.metadata _ eq_refl eq_refl eq_refl eq_refl).
Defined.

(** X5: when the response is accepted but its body is not JSON, decoding it
    raises outside any handler: the run raises a JSON decoding error after
    the GET, before validation and before any storage call. *)
Theorem undecodable_schema_raises
    (E : Env) (a : args) (s0 : store) sz metadata status :
  fs E (metadata_path a) = Some (FFile sz (Some metadata)) ->
  http_get E (schema_url E a) = HttpResponse status None ->
  (status < 400 \/ 600 <= status)%Z ->
  exists e,
    run E a s0 = (inl e, World [HttpGet (schema_url E a)] s0)
    /\ exn_cls e = JSONDecodeError.
Proof.
  intros Hfs Hget Hst. rewrite (run_loaded _ _ _ _ _ Hfs), Hget. cbv zeta.
  replace ((400 <=? status) && (status <? 600))%Z with false; [by eexists|].
  symmetry. apply andb_false_iff.
  destruct Hst; [left; apply Z.leb_gt|right; apply Z.ltb_ge]; lia.
Qed.

Lemma undecodable_schema_raises_witness :
  exists e,
    run (Build_Env (API Catset.env) (fs Catset.env)
           (fun _ => HttpResponse 204 None)
           (jsonschema_validate Catset.env) (minio_fault Catset.env)
           (broker_fault Catset.env) (today Catset.env))
        Catset.flags Catset.empty_store
    = (inl e, World [HttpGet "http://api/animals"] Catset.empty_store)
    /\ exn_cls e = JSONDecodeError.
Proof.
  apply (undecodable_schema_raises
           (Build_Env (API Catset.env) (fs Catset.env)
              (fun _ => HttpResponse 204 None)
              (jsonschema_validate Catset.env) (minio_fault Catset.env)
              (broker_fault Catset.env) (today Catset.env))
           Catset.flags Catset.empty_store 120%N Catset.metadata 204%Z);
    [reflexivity | reflexivity | lia].
Defined.

(** X6: only a validation error is handled around the validator; any other
    exception it raises (an invalid schema, for one) escapes from the run,
    with the GET as the only event. *)
Theorem other_validator_exception_escapes
    (E : Env) (a : args) (s0 : store) sz metadata status schema e :
  fs E (metadata_path a) = Some (FFile sz (Some metadata)) ->
  http_get E (schema_url E a) = HttpResponse status (Some schema) ->
  ((400 <=? status) && (status <? 600))%Z = false ->
  jsonschema_validate E metadata schema = Some e ->
  isinstance e ValidationError = false ->
  run E a s0 = (inl e, World [HttpGet (schema_url E a)] s0).
Proof.
  intros Hfs Hget Hst Hval Hcls.
  by rewrite (run_loaded _ _ _ _ _ Hfs), Hget, Hst, Hval, Hcls.
Qed.

Lemma other_validator_exception_escapes_witness :
  run Cases.env_bad_schema Catset.flags Catset.empty_store
    = (inl (Exn SchemaError "'arrray' is not valid under any of the given schemas"),
       World [HttpGet "http://api/animals"] Catset.empty_store).
Proof.
  exact (other_validator_exception_escapes Cases.env_bad_schema Catset.flags
           Catset.empty_store 120%N Catset.metadata 200%Z Catset.schema _
           eq_refl eq_refl eq_refl eq_refl eq_refl).
Defined.

(** X7: once the document has validated, the only exception that can leave
    the command is one raised while building the storage client; every
    later failure, of the store or of the broker, is caught and the command
    returns. *)
Theorem only_client_construction_escapes
    (E : Env) (a : args) (metadata : pyval) (w : world) (e : exn) :
  (upload_and_announce E a metadata w).1 = inl e
  <-> minio_fault E (minio w) (Minio_new (endpoint a) (access_key a) (secret_key a)) = Some e.
Proof.
  rewrite upload_and_announce_run.
  destruct (minio_fault E (minio w) _) as [e'|].
  - simpl. split; congruence.
  - destruct (upload_step E a (target_bucket a) metadata _ (client_ready a w))
      as [[err|im] w2].
    + by split.
    + destruct (announce_run E a im w2) as (evs & -> & _). by split.
Qed.

(** ** The announcer when the broker fails *)

(** X8: when a broker call raises, the calls before it have been made, no
    later call is made, the failure is reported by the error-sending
    message, the command returns, and the store is as the upload left it. *)
Theorem announcer_failure_is_caught
    (E : Env) (a : args) (im : pydict) (w : world) pre op post e :
  announcer_calls a im = pre ++ op :: post ->
  Forall (fun o => broker_fault E o = None) pre ->
  broker_fault E op = Some e ->
  exists evs,
    announce E a im w
      = (inr tt,
         World (trace w ++ evs ++ [Broker op (Some e); Echo "Error sending metadata to RabbitMQ"])
               (minio w))
    /\ filter (fun ev => is_broker ev = true) evs = map (fun o => Broker o None) pre.
Proof.
  unfold announcer_calls. intros Hcalls Hpre Hop.
  unfold announce, broker_call.
  destruct pre as [|p1 [|p2 [|p3 [|p4 [|p5 pre]]]]];
    simplify_eq/=; repeat match goal with
                          | H : Forall _ (_ :: _) |- _ => apply Forall_cons in H as [? H]
                          end;
    repeat match goal with
           | H : broker_fault E _ = _ |- _ => rewrite H; clear H
           end;
    unfold mbind, M_bind, mret, M_ret, try_except, raise, echo, emit;
    cbn [trace minio]; rewrite <- ?app_assoc; cbn [app].
  - by exists [].
  - by eexists [_].
  - by eexists [_; _].
  - by eexists [_; _; _].
  - by eexists [_; _; _; _; _].
  - by destruct pre.
Qed.

Lemma announcer_failure_is_caught_witness :
  exists evs,
    announce Cases.env_declare_fails Catset.flags Catset.message Cases.start
      = (inr tt,
         World (trace Cases.start ++ evs ++
                  [ Broker (queue_declare (Some "q") true)
                      (Some (Exn BrokerError "PRECONDITION_FAILED"));
                    Echo "Error sending metadata to RabbitMQ" ])
               (minio Cases.start))
    /\ filter (fun ev => is_broker ev = true) evs
       = map (fun o => Broker o None)
           [ BlockingConnection (Some "rabbit") (Some "5672") (Some "u") (Some "p");
             channel ].
Proof.
  apply (announcer_failure_is_caught Cases.env_declare_fails Catset.flags
           Catset.message Cases.start _ _
           [ basic_publish "" (Some "q") (Json.dumps (PDict Catset.message)) 2;
             connection_close ]).
  - reflexivity.
  - by repeat constructor.
  - reflexivity.
Defined.

(** ** What the upload step emits *)

#[global] Instance emits_preorder P : PreOrder (emits P).
Proof.
  split.
  - intros w. exists []. by rewrite app_nil_r.
  - intros w1 w2 w3 (evs1 & Ht1 & H1) (evs2 & Ht2 & H2).
    exists (evs1 ++ evs2). split; [by rewrite Ht2, Ht1, app_assoc|].
    by apply Forall_app.
Qed.

Lemma emits_emit P ev : P ev -> preserves (emits P) (emit ev).
Proof. intros H w. exists [ev]. split; [done|]. by apply Forall_singleton. Qed.

Lemma emits_minio_call E P op :
  (forall o, P (Minio op o)) -> preserves (emits P) (minio_call E op).
Proof.
  intros H w. unfold minio_call.
  destruct (minio_fault E (minio w) op) as [e|]; simpl;
    (eexists [_]; split; [done|]; by apply Forall_singleton).
Qed.

Lemma emits_same P {A} (c : M A) : (forall w, (c w).2 = w) -> preserves (emits P) c.
Proof. apply preserves_same, _. Qed.

Lemma emits_seq P {A B} (c : M A) (f : A -> M B) :
  preserves (emits P) c -> (forall x, preserves (emits P) (f x)) ->
  preserves (emits P) (c ≫= f).
Proof. apply preserves_seq, _. Qed.

(** The loop emits log lines and put calls only, and each put call is for
    the file named by a record of the items. *)
Lemma emits_upload_files E a b (P : event -> Prop) items :
  (forall msg, P (LogInfo msg)) ->
  (forall d p f o,
     PDict d ∈ items ->
     Dict.get "image_path" d = Some (PStr p) ->
     fs E (PyStr.os_path_join (dir_path a) p) = Some f ->
     is_file f = true ->
     P (Minio (put_object b (PyStr.os_path_join (dir_path a) p) (st_size f)) o)) ->
  forall img_format im, preserves (emits P) (upload_files E a b items img_format im).
Proof.
  intros Hlog. induction items as [|item rest IH]; intros Hput img_format im; simpl.
  - by apply emits_same.
  - apply (preserves_bind _ (fun x => exists d, item = PDict d /\ Dict.get "image_path" d = Some x));
      [apply emits_same, py_getitem_same| |intros image_path (d & -> & Hd)].
    { intros w x w1 H. apply py_getitem_inv in H as (_ & d & -> & H). eauto. }
    apply (preserves_bind _ (fun x => exists p, image_path = PStr p
                                       /\ x = PyStr.os_path_join (dir_path a) p));
      [apply emits_same, os_path_join_val_same| |intros file_path (p & -> & ->)].
    { intros w x w1 H. by apply os_path_join_val_inv in H as (_ & H). }
    apply emits_seq; [apply emits_same, py_getitem_same|intros image_type].
    apply emits_seq; [apply emits_same, set_add_same|intros img_format'].
    apply (preserves_bind _ (fun f => fs E (PyStr.os_path_join (dir_path a) p) = Some f
                                      /\ is_file f = true));
      [apply emits_same, open_file_same| |intros f [Hf Hfile]].
    { intros w f w1 H. by destruct (open_file_inv _ _ _ _ _ H) as (? & ? & _). }
    apply emits_seq; [by apply emits_emit|intros _].
    apply emits_seq; [|intros _].
    { apply emits_minio_call. intros o. apply (Hput d p f o); [set_solver|done..]. }
    apply emits_seq; [by apply emits_emit|intros _].
    apply emits_seq; [apply emits_same, py_setitem_same|intros item'].
    apply emits_seq; [apply emits_same, files_append_same|intros im'].
    apply IH. intros d' p' f' o Hin. apply Hput. set_solver.
Qed.

(** What follows the bucket look-up and creation in the upload step. *)
Lemma emits_upload_rest E a b (P : event -> Prop) records im :
  (forall msg, P (LogInfo msg)) -> (forall msg, P (Echo msg)) ->
  (forall d p f o,
     PDict d ∈ records ->
     Dict.get "image_path" d = Some (PStr p) ->
     fs E (PyStr.os_path_join (dir_path a) p) = Some f ->
     is_file f = true ->
     P (Minio (put_object b (PyStr.os_path_join (dir_path a) p) (st_size f)) o)) ->
  (forall o, P (Minio (bucket_exists b) o)) ->
  forall found : bool,
    (if found then True else forall o, P (Minio (make_bucket b) o)) ->
    preserves (emits P)
      ((if found then echo ("Bucket " +:+ b +:+ " already exists on MinIO server.")
        else logging_info ("Creating bucket " +:+ b +:+ " on MinIO server.");;
             minio_call E (make_bucket b);;
             echo ("Bucket " +:+ b +:+ " created on MinIO server."));;
       logging_info ("Uploading files in " +:+ dir_path a +:+ " to bucket " +:+ b +:+ " on MinIO server.");;
       items ← py_iter (PList records);
       r ← upload_files E a b items [] im;
       echo ("Successfully uploaded " +:+ dir_path a +:+ " to " +:+ b +:+ " on MinIO server.");;
       mret (Dict.set "dataset_details"
               (PDict [ ("name", PStr (dir_path a)); ("bucket", PStr b);
                        ("date", PStr (today E));
                        ("size", PInt (Z.of_N (get_dataset_size E (dir_path a))));
                        ("filetype", PList r.1) ])
               (Dict.set "dataset_name" (PStr b) r.2))).
Proof.
  intros Hlog Hecho Hput Hex found Hmake.
  apply emits_seq; [|intros _].
  { destruct found; [by apply emits_emit|].
    apply emits_seq; [by apply emits_emit|intros _].
    apply emits_seq; [by apply emits_minio_call|intros _].
    by apply emits_emit. }
  apply emits_seq; [by apply emits_emit|intros _].
  apply (preserves_bind _ (fun items => items = records));
    [apply emits_same, py_iter_same|by intros w x w1 [= <- _]|intros items ->].
  apply emits_seq; [by apply emits_upload_files|intros r].
  apply emits_seq; [by apply emits_emit|intros _].
  by apply emits_same.
Qed.

(** X9: whatever its outcome, the upload step of a list document puts
    objects into the resolved bucket only, each under the joined path of the
    dataset directory and the image path of a record of the document, with
    the length of the file of that name. *)
Theorem puts_follow_the_metadata
    (E : Env) (a : args) (b : string) (records : list pyval) (im : pydict) (w : world) :
  exists evs,
    trace (upload_step E a b (PList records) im w).2 = trace w ++ evs
    /\ Forall (put_for E a b records) evs.
Proof.
  assert (preserves (emits (put_for E a b records)) (upload_step E a b (PList records) im))
    as H; [|exact (H w)].
  unfold upload_step, client_bucket_exists.
  apply emits_seq; [|intros found].
  { apply emits_seq; [by apply emits_minio_call|intros _]. by apply emits_same. }
  apply emits_upload_rest; try done.
  - intros d p f o Hin Hp Hf Hfile b' k len o' [= <- <- <- <-].
    split; [done|]. split; [by exists f|]. by exists d, p.
  - by destruct found.
Qed.

Example puts_of_the_scenario :
  put_calls (trace (upload_step Catset.env Catset.flags "catset" Catset.metadata
                      (Dict.set "files" (PList []) []) Cases.start).2)
  = [ ("catset", "catset/cat1.jpg", 1000%N); ("catset", "catset/cat2.png", 2000%N) ].
Proof. reflexivity. Qed.


(** ** The bucket *)

Lemma client_bucket_exists_run E b w :
  client_bucket_exists E b w =
    match minio_fault E (minio w) (bucket_exists b) with
    | Some e => (inl e, World (trace w ++ [Minio (bucket_exists b) (Some e)]) (minio w))
    | None => (inr (bool_decide (b ∈ buckets (minio w))),
               World (trace w ++ [Minio (bucket_exists b) None]) (minio w))
    end.
Proof.
  unfold client_bucket_exists, minio_call. rewrite bind_run.
  by destruct (minio_fault E (minio w) (bucket_exists b)).
Qed.

(** X10: when the bucket is already in the store, the upload step does not
    call make_bucket, whatever happens afterwards. *)
Theorem existing_bucket_is_not_created
    (E : Env) (a : args) (b : string) (records : list pyval) (im : pydict) (w : world) :
  b ∈ buckets (minio w) ->
  exists evs,
    trace (upload_step E a b (PList records) im w).2 = trace w ++ evs
    /\ Forall (fun e => is_make_bucket e = false) evs.
Proof.
  intros Hb. unfold upload_step. rewrite bind_run, client_bucket_exists_run.
  destruct (minio_fault E (minio w) (bucket_exists b)) as [e|].
  - eexists [_]. split; [done|]. by apply Forall_singleton.
  - rewrite bool_decide_eq_true_2 by done.
    destruct (emits_upload_rest E a b (fun e => is_make_bucket e = false) records im
                (fun _ => eq_refl) (fun _ => eq_refl)
                (fun _ _ _ _ _ _ _ _ => eq_refl) (fun _ => eq_refl) true I
                (World (trace w ++ [Minio (bucket_exists b) None]) (minio w)))
      as (evs & Ht & Hall).
    rewrite Ht. cbn [trace]. rewrite <- app_assoc.
    eexists. split; [done|]. by constructor.
Qed.

Lemma existing_bucket_is_not_created_witness :
  exists evs,
    trace (upload_step Catset.env Catset.flags "catset" (PList Catset.records)
             (Dict.set "files" (PList []) []) (World [] Cases.store_with_bucket)).2
      = [] ++ evs
    /\ Forall (fun e => is_make_bucket e = false) evs.
Proof.
  apply (existing_bucket_is_not_created Catset.env Catset.flags "catset"
           Catset.records _ (World [] Cases.store_with_bucket)).
  vm_compute. set_solver.
Defined.

(** X11: when the upload step returns, the bucket is in the store; it was
    created by a make_bucket call of this step exactly when it was not
    there before. *)
Theorem bucket_is_ensured
    (E : Env) (a : args) (b : string) (metadata : pyval) (im im' : pydict) (w w' : world) :
  upload_step E a b metadata im w = (inr im', w') ->
  b ∈ buckets (minio w')
  /\ (b ∉ buckets (minio w) ->
      exists evs, trace w' = trace w ++ evs /\ Minio (make_bucket b) None ∈ evs).
Proof.
  unfold upload_step. intros H.
  apply bind_inr_inv in H as (found & w1 & Hex & H).
  rewrite client_bucket_exists_run in Hex.
  destruct (minio_fault E (minio w) (bucket_exists b)); [done|].
  injection Hex as <- <-.
  apply bind_inr_inv in H as ([] & w2 & Hmk & H).
  match type of H with
  | ?c w2 = _ =>
      assert (steps E w2 (c w2).2) as (evs & Ht & _ & Hbk & _);
        [|rewrite H in Ht, Hbk; cbn [snd] in Ht, Hbk]
  end.
  { apply steps_seq; [apply steps_logging_info|intros _].
    apply steps_seq; [apply steps_same, py_iter_same|intros items].
    apply steps_seq; [apply steps_upload_files|intros r].
    apply steps_seq; [apply steps_echo|intros _]. by apply steps_same. }
  destruct (bool_decide_reflect (b ∈ buckets (minio w))) as [Hin|Hnin].
  - cbv [echo emit] in Hmk. injection Hmk as <-. split; [by apply Hbk|done].
  - apply bind_inr_inv in Hmk as ([] & w3 & Hlog & Hmk).
    cbv [logging_info emit] in Hlog. injection Hlog as <-.
    apply bind_inr_inv in Hmk as ([] & w4 & Hcall & Hmk).
    unfold minio_call in Hcall. cbn [minio trace] in Hcall.
    destruct (minio_fault E (minio w) (make_bucket b)); [done|].
    injection Hcall as <-. cbv [echo emit] in Hmk. injection Hmk as <-.
    cbn [trace minio store_apply buckets] in Ht, Hbk. split.
    + apply Hbk. set_solver.
    + intros _. rewrite Ht, <- !app_assoc. eexists. split; [done|]. set_solver.
Qed.

Lemma bucket_is_ensured_witness :
  "catset" ∈ buckets (minio (upload_step Catset.env Catset.flags "catset" Catset.metadata
                               (Dict.set "files" (PList []) []) Cases.start).2).
Proof.
  set (r := upload_step Catset.env Catset.flags "catset" Catset.metadata
              (Dict.set "files" (PList []) []) Cases.start).
  assert (r = (inr Catset.message, r.2)) as Hr by (vm_compute; reflexivity).
  exact (proj1 (bucket_is_ensured _ _ _ _ _ _ _ _ Hr)).
Defined.

(** ** The run as a whole *)

(** A run either stops before the storage client is built, having made no
    storage or broker call, or continues with the validated document. *)
Lemma run_cases E a s0 :
  (Forall (fun e => is_minio e = false /\ is_broker e = false) (trace (run E a s0).2)
   /\ minio (run E a s0).2 = s0)
  \/ (exists sz metadata,
        fs E (metadata_path a) = Some (FFile sz (Some metadata))
        /\ run E a s0
           = upload_and_announce E a metadata
               (World [ HttpGet (schema_url E a);
                        Echo ("Validated metadata file " +:+ metadata_path a +:+ " against the schema.") ]
                      s0)).
Proof.
  destruct (fs E (metadata_path a)) as [[sz [metadata|]|es|]|] eqn:Hfs;
    try (left; unfold run, upload_dataset, os_path_exists, open_file;
         fold (metadata_path a); rewrite Hfs; simpl; by repeat constructor).
  rewrite (run_loaded _ _ _ _ _ Hfs).
  destruct (http_get E (schema_url E a)) as [e|status [schema|]]; cbv zeta.
  - left. repeat case_match; simpl; by repeat constructor.
  - destruct ((400 <=? status) && (status <? 600))%Z;
      [left; simpl; by repeat constructor|].
    destruct (jsonschema_validate E metadata schema) as [e|].
    + left. case_match; simpl; by repeat constructor.
    + right. by exists sz, metadata.
  - left. case_match; simpl; by repeat constructor.
Qed.

(** After validation: first events that are no broker calls, then events
    that are no storage calls; the store only grows. *)
Lemma upload_and_announce_shape E a metadata w :
  exists evs1 evs2,
    trace (upload_and_announce E a metadata w).2 = trace w ++ evs1 ++ evs2
    /\ Forall (fun e => is_broker e = false) evs1
    /\ Forall (fun e => is_minio e = false) evs2
    /\ buckets (minio w) ⊆ buckets (minio (upload_and_announce E a metadata w).2)
    /\ dom (objects (minio w))
         ⊆ dom (objects (minio (upload_and_announce E a metadata w).2)).
Proof.
  rewrite upload_and_announce_run.
  destruct (minio_fault E (minio w) _) as [e|].
  { eexists [_], []. simpl. split; [done|]. by repeat constructor. }
  pose proof (steps_upload_step E a (target_bucket a) metadata
                (Dict.set "files" (PList []) []) (client_ready a w))
    as (evs & Ht & Hnb & Hbk & Hdom & _).
  destruct (upload_step E a (target_bucket a) metadata _ (client_ready a w))
    as [[err|im] w2]; cbn [snd] in *.
  - eexists (_ :: _ :: evs), [_]. cbn [echo emit snd trace minio].
    rewrite Ht. cbn [client_ready trace]. rewrite <- !app_assoc.
    split; [done|]. split; [by repeat constructor|]. by repeat constructor.
  - destruct (announce_run E a im w2) as (evs' & -> & _ & Hnm).
    eexists (_ :: _ :: evs), evs'. cbn [snd trace minio].
    rewrite Ht. cbn [client_ready trace]. rewrite <- !app_assoc.
    split; [done|]. split; [by repeat constructor|].
    split; [|done]. eapply Forall_impl; [exact Hnm|]. by intros e [? _].
Qed.

(** X12: no run removes anything from the store, however it ends: every
    bucket and every object that was there before the run is there after. *)
Theorem run_never_removes (E : Env) (a : args) (s0 : store) :
  buckets s0 ⊆ buckets (minio (run E a s0).2)
  /\ dom (objects s0) ⊆ dom (objects (minio (run E a s0).2)).
Proof.
  destruct (run_cases E a s0) as [[_ ->]|(sz & metadata & _ & ->)]; [done|].
  destruct (upload_and_announce_shape E a metadata
              (World [ HttpGet (schema_url E a);
                       Echo ("Validated metadata file " +:+ metadata_path a +:+ " against the schema.") ]
                     s0))
    as (_ & _ & _ & _ & _ & Hbk & Hdom).
  done.
Qed.

(** X13: in every run the storage calls come before the broker calls: the
    trace splits into a part without broker calls followed by a part
    without storage calls.  The announcer only starts when the uploads are
    over, and nothing is uploaded once it has started. *)
Theorem storage_precedes_broker (E : Env) (a : args) (s0 : store) :
  exists before after,
    trace (run E a s0).2 = before ++ after
    /\ Forall (fun e => is_broker e = false) before
    /\ Forall (fun e => is_minio e = false) after.
Proof.
  destruct (run_cases E a s0) as [[Hall _]|(sz & metadata & _ & ->)].
  - exists (trace (run E a s0).2), []. rewrite app_nil_r.
    split; [done|]. split; [|done].
    eapply Forall_impl; [exact Hall|]. by intros e [_ ?].
  - destruct (upload_and_announce_shape E a metadata
                (World [ HttpGet (schema_url E a);
                         Echo ("Validated metadata file " +:+ metadata_path a +:+ " against the schema.") ]
                       s0))
      as (evs1 & evs2 & Ht & H1 & H2 & _).
    eexists (_ :: _ :: evs1), evs2. rewrite Ht. cbn [trace app].
    split; [done|]. split; [by repeat constructor|done].
Qed.


(** ** One put per record *)

Lemma put_calls_app evs1 evs2 : put_calls (evs1 ++ evs2) = put_calls evs1 ++ put_calls evs2.
Proof. apply omap_app. Qed.

Lemma upload_files_put_calls E a b items :
  forall img_format im w r w',
    upload_files E a b items img_format im w = (inr r, w') ->
    exists evs,
      trace w' = trace w ++ evs
      /\ Forall2 (put_of E a b) items (put_calls evs).
Proof.
  induction items as [|item rest IH]; intros img_format im w r w'.
  - simpl. intros [= <- <-]. exists []. rewrite app_nil_r. by split.
  - simpl. intros H.
    apply bind_inr_inv in H as (image_path & w1 & Hpath & H).
    apply py_getitem_inv in Hpath as (-> & d & -> & Hpath).
    apply bind_inr_inv in H as (file_path & w1 & Hjoin & H).
    apply os_path_join_val_inv in Hjoin as (-> & p & -> & ->).
    apply bind_inr_inv in H as (image_type & w1 & Htype & H).
    apply py_getitem_inv in Htype as (-> & _).
    apply bind_inr_inv in H as (fmt1 & w1 & Hadd & H).
    pose proof (set_add_same image_type img_format w) as Hw. rewrite Hadd in Hw.
    simpl in Hw. subst w1.
    apply bind_inr_inv in H as (f & w1 & Hopen & H).
    apply open_file_inv in Hopen as (Hfs & Hfile & ->).
    apply bind_inr_inv in H as ([] & w1 & Hlog1 & H).
    cbv [logging_info emit] in Hlog1. injection Hlog1 as <-.
    apply bind_inr_inv in H as ([] & w2 & Hput & H).
    apply minio_call_inv in Hput. simpl in Hput.
    apply bind_inr_inv in H as ([] & w3 & Hlog2 & H).
    cbv [logging_info emit] in Hlog2. injection Hlog2 as <-.
    apply bind_inr_inv in H as (item' & w4 & Hset & H).
    simpl in Hset. injection Hset as <- <-.
    apply bind_inr_inv in H as (im1 & w4 & Happ & H).
    pose proof (files_append_same
                  (PDict (Dict.set "bucket" (PStr b) d)) im
                  (World (trace w2 ++ [LogInfo ("Successfully uploaded "
                            +:+ PyStr.os_path_join (dir_path a) p +:+ " to " +:+ b
                            +:+ " on MinIO server.")]) (minio w2))) as Hw.
    rewrite Happ in Hw. simpl in Hw. subst w4.
    apply IH in H as (evs & Ht & Hall). simpl in Ht. rewrite Hput in Ht.
    eexists. split; [rewrite Ht, <- !app_assoc; simpl; reflexivity|].
    cbn [put_calls omap]. simpl. constructor; [|exact Hall].
    by exists d, p, f.
Qed.

(** What a returned upload step is made of: events without a put, then the
    loop over the items of the document, then the success message. *)
Lemma upload_step_inv E a b metadata im0 w im w' :
  upload_step E a b metadata im0 w = (inr im, w') ->
  exists items pre w1 img_format im1 w2,
    (forall w0, py_iter metadata w0 = (inr items, w0))
    /\ trace w1 = trace w ++ pre
    /\ put_calls pre = []
    /\ upload_files E a b items [] im0 w1 = (inr (img_format, im1), w2)
    /\ trace w' = trace w2 ++ [Echo ("Successfully uploaded " +:+ dir_path a +:+ " to "
                                        +:+ b +:+ " on MinIO server.")]
    /\ im = Dict.set "dataset_details"
              (PDict [ ("name", PStr (dir_path a)); ("bucket", PStr b);
                       ("date", PStr (today E));
                       ("size", PInt (Z.of_N (get_dataset_size E (dir_path a))));
                       ("filetype", PList img_format) ])
              (Dict.set "dataset_name" (PStr b) im1).
Proof.
  unfold upload_step. intros H.
  apply bind_inr_inv in H as (found & w1 & Hex & H).
  rewrite client_bucket_exists_run in Hex.
  destruct (minio_fault E (minio w) (bucket_exists b)); [done|].
  injection Hex as <- <-.
  apply bind_inr_inv in H as ([] & w2 & Hmk & H).
  assert (exists pre, trace w2 = trace w ++ pre /\ put_calls pre = []) as (pre & Hpre & Hnone).
  { destruct (bool_decide (b ∈ buckets (minio w))).
    - cbv [echo emit] in Hmk. injection Hmk as <-. simpl.
      rewrite <- app_assoc. by eexists.
    - apply bind_inr_inv in Hmk as ([] & w3 & Hlog & Hmk).
      cbv [logging_info emit] in Hlog. injection Hlog as <-.
      apply bind_inr_inv in Hmk as ([] & w4 & Hcall & Hmk).
      apply minio_call_inv in Hcall. cbv [echo emit] in Hmk. injection Hmk as <-.
      simpl in *. rewrite Hcall, <- !app_assoc. by eexists. }
  apply bind_inr_inv in H as ([] & w3 & Hlog & H).
  cbv [logging_info emit] in Hlog. injection Hlog as <-.
  apply bind_inr_inv in H as (items & w3 & Hiter & H).
  assert (forall w0, py_iter metadata w0 = (inr items, w0)) as Hitems.
  { destruct metadata; try done; simpl in Hiter; injection Hiter as <- _; done. }
  rewrite Hitems in Hiter. injection Hiter as <-.
  apply bind_inr_inv in H as ([img_format im1] & w3 & Hloop & H).
  apply bind_inr_inv in H as ([] & w4 & Hecho & H).
  cbv [echo emit] in Hecho. injection Hecho as <-.
  injection H as <- <-.
  eexists items, (pre ++ [_]), _, img_format, im1, w3.
  refine (conj Hitems (conj _ (conj _ (conj Hloop (conj eq_refl eq_refl))))).
  - simpl. by rewrite Hpre, <- app_assoc.
  - by rewrite put_calls_app, Hnone.
Qed.

(** X14: when the upload step of a list document returns, its put calls
    that returned are, in document order, exactly one per record: the put
    of that record's file into the bucket.  Nothing is skipped, nothing is
    deduplicated, nothing else is put. *)
Theorem one_put_per_record
    (E : Env) (a : args) (b : string) (records : list pyval) (im0 im : pydict) (w w' : world) :
  upload_step E a b (PList records) im0 w = (inr im, w') ->
  exists evs,
    trace w' = trace w ++ evs
    /\ Forall2 (put_of E a b) records (put_calls evs).
Proof.
  intros H.
  apply upload_step_inv in H
    as (items & pre & w1 & img_format & im1 & w2 & Hitems & Hpre & Hnone & Hloop & Ht & _).
  specialize (Hitems w). injection Hitems as <-.
  apply upload_files_put_calls in Hloop as (evs & Hevs & Hall).
  exists (pre ++ evs ++ [Echo ("Successfully uploaded " +:+ dir_path a +:+ " to "
                                +:+ b +:+ " on MinIO server.")]).
  split; [by rewrite Ht, Hevs, Hpre, <- !app_assoc|].
  rewrite !put_calls_app, Hnone. simpl. by rewrite app_nil_r.
Qed.

Lemma one_put_per_record_witness :
  exists evs,
    trace (upload_step Catset.env Catset.flags "catset" (PList Cases.records_repeated)
             (Dict.set "files" (PList []) []) Cases.start).2
      = trace Cases.start ++ evs
    /\ Forall2 (put_of Catset.env Catset.flags "catset")
         Cases.records_repeated (put_calls evs).
Proof.
  set (r := upload_step Catset.env Catset.flags "catset" (PList Cases.records_repeated)
              (Dict.set "files" (PList []) []) Cases.start).
  assert (r = (inr (match r.1 with inr im => im | inl _ => [] end), r.2)) as Hr
    by (vm_compute; reflexivity).
  exact (one_put_per_record _ _ _ _ _ _ _ _ Hr).
Defined.

Example repeated_file_is_put_twice :
  put_calls (trace (upload_step Catset.env Catset.flags "catset" (PList Cases.records_repeated)
                      (Dict.set "files" (PList []) []) Cases.start).2)
  = [ ("catset", "catset/cat1.jpg", 1000%N);
      ("catset", "catset/cat2.png", 2000%N);
      ("catset", "catset/cat1.jpg", 1000%N) ].
Proof. reflexivity. Qed.

(** ** The set of image types *)

Lemma hkey_eqb_eq k k' : hkey_eqb k k' = true <-> k = k'.
Proof.
  destruct k, k'; simpl; try (split; [discriminate|congruence]); try done.
  - rewrite Z.eqb_eq. split; congruence.
  - rewrite String.eqb_eq. split; congruence.
Qed.

Lemma set_member_spec k s :
  existsb (fun x => match hash_key x with
                    | Some k' => hkey_eqb k' k
                    | None => false
                    end) s = true
  <-> k ∈ hkeys s.
Proof.
  unfold hkeys. rewrite existsb_exists, list_elem_of_omap. split.
  - intros (x & Hin%list_elem_of_In & Hx). exists x. split; [done|].
    destruct (hash_key x) as [k'|]; [|done]. by apply hkey_eqb_eq in Hx as ->.
  - intros (x & Hin%list_elem_of_In & Hx). exists x. split; [done|].
    rewrite Hx. by apply hkey_eqb_eq.
Qed.

Lemma hkeys_snoc v k s : hash_key v = Some k -> hkeys (s ++ [v]) = hkeys s ++ [k].
Proof. intros H. unfold hkeys. rewrite omap_app. simpl. by rewrite H. Qed.

Lemma set_add_inv v s w s' w' :
  set_add v s w = (inr s', w') ->
  w' = w
  /\ exists k, hash_key v = Some k
               /\ ((k ∈ hkeys s /\ s' = s) \/ ((k ∉ hkeys s) /\ s' = (s ++ [v]))).
Proof.
  unfold set_add. destruct (hash_key v) as [k|] eqn:Hk; [|done].
  destruct (existsb _ s) eqn:Hmem; intros [= <- <-]; (split; [done|]); exists k;
    (split; [done|]).
  - left. split; [|done]. by apply set_member_spec.
  - right. split; [|done]. rewrite <- set_member_spec. by rewrite Hmem.
Qed.

Lemma image_types_of_loop E a b items :
  forall img_format im w img_format' im' w',
    upload_files E a b items img_format im w = (inr (img_format', im'), w') ->
    NoDup (hkeys img_format) ->
    length (hkeys img_format) = length img_format ->
    NoDup (hkeys img_format')
    /\ length (hkeys img_format') = length img_format'
    /\ hkeys img_format ⊆ hkeys img_format'
    /\ (forall d, PDict d ∈ items ->
          exists t k, Dict.get "image_type" d = Some t
                      /\ hash_key t = Some k /\ k ∈ hkeys img_format')
    /\ (forall v, v ∈ img_format' ->
          v ∈ img_format
          \/ exists d, PDict d ∈ items /\ Dict.get "image_type" d = Some v).
Proof.
  induction items as [|item rest IH]; intros img_format im w img_format' im' w'.
  - simpl. intros [= <- <- <-] Hnd Hlen.
    split; [done|]. split; [done|]. split; [done|].
    split; [by intros d Hd%elem_of_nil|]. by left.
  - simpl. intros H Hnd Hlen.
    apply bind_inr_inv in H as (image_path & w1 & Hpath & H).
    apply py_getitem_inv in Hpath as (-> & d & -> & Hpath).
    apply bind_inr_inv in H as (file_path & w1 & _ & H).
    apply bind_inr_inv in H as (image_type & w2 & Htype & H).
    apply py_getitem_inv in Htype as (-> & d' & [= <-] & Htype).
    apply bind_inr_inv in H as (fmt1 & w2 & Hadd & H).
    apply set_add_inv in Hadd as (-> & k & Hk & Hcase).
    apply bind_inr_inv in H as (f & w2 & _ & H).
    apply bind_inr_inv in H as ([] & w3 & _ & H).
    apply bind_inr_inv in H as ([] & w4 & _ & H).
    apply bind_inr_inv in H as ([] & w5 & _ & H).
    apply bind_inr_inv in H as (item' & w6 & _ & H).
    apply bind_inr_inv in H as (im1 & w7 & _ & H).
    assert (NoDup (hkeys fmt1) /\ length (hkeys fmt1) = length fmt1
            /\ hkeys img_format ⊆ hkeys fmt1 /\ k ∈ hkeys fmt1
            /\ (forall v, v ∈ fmt1 -> v ∈ img_format \/ v = image_type))
      as (Hnd1 & Hlen1 & Hsub1 & Hk1 & Hfrom1).
    { destruct Hcase as [[Hin ->]|[Hnin ->]]; [by auto 10|].
      rewrite !(hkeys_snoc _ _ _ Hk).
      split; [apply NoDup_app; split; [done|]; split;
              [by intros x Hx ->%list_elem_of_singleton|apply NoDup_singleton]|].
      split; [rewrite !length_app; simpl; lia|].
      split; [by apply list_subseteq_app_l|].
      split; [apply elem_of_app; right; by apply list_elem_of_singleton|].
      intros v [Hv|Hv%list_elem_of_singleton]%elem_of_app; auto. }
    apply IH in H as (Hnd' & Hlen' & Hsub' & Hall' & Hfrom'); [|done..].
    split; [done|]. split; [done|]. split; [by etrans|]. split.
    + intros d0 [[= <-]|Hd0]%elem_of_cons; [|by apply Hall'].
      exists image_type, k. split; [done|]. split; [done|]. by apply Hsub'.
    + intros v Hv. destruct (Hfrom' v Hv) as [Hv1|(d0 & Hd0 & Hv0)].
      * destruct (Hfrom1 v Hv1) as [?| ->]; [by left|].
        right. exists d. split; [apply elem_of_cons; by left|done].
      * right. exists d0. split; [apply elem_of_cons; by right|done].
Qed.

(** X15: when the upload step of a list document returns, the filetype list
    of the dataset details holds the image types of the records without
    repetition (up to Python's equality of hashable values): every record's
    image type is represented, every member is the image type of some
    record, and no two members are equal. *)
Theorem filetype_is_the_set_of_image_types
    (E : Env) (a : args) (b : string) (records : list pyval) (im0 im : pydict) (w w' : world) :
  upload_step E a b (PList records) im0 w = (inr im, w') ->
  exists details filetype,
    Dict.get "dataset_details" im = Some (PDict details)
    /\ Dict.get "filetype" details = Some (PList filetype)
    /\ NoDup (hkeys filetype)
    /\ length (hkeys filetype) = length filetype
    /\ (forall d, PDict d ∈ records ->
          exists t k, Dict.get "image_type" d = Some t
                      /\ hash_key t = Some k /\ k ∈ hkeys filetype)
    /\ (forall v, v ∈ filetype ->
          exists d, PDict d ∈ records /\ Dict.get "image_type" d = Some v).
Proof.
  intros H.
  apply upload_step_inv in H
    as (items & pre & w1 & img_format & im1 & w2 & Hitems & _ & _ & Hloop & _ & ->).
  specialize (Hitems w). injection Hitems as <-.
  apply image_types_of_loop in Hloop as (Hnd & Hlen & _ & Hall & Hfrom);
    [|apply NoDup_nil_2|done].
  eexists _, img_format. split; [apply dict_get_set_eq|].
  split; [reflexivity|]. split; [done|]. split; [done|]. split; [done|].
  intros v Hv. by destruct (Hfrom v Hv) as [?%elem_of_nil|?].
Qed.

Lemma filetype_is_the_set_of_image_types_witness :
  exists details filetype,
    Dict.get "dataset_details"
      (match (upload_step Catset.env Catset.flags "catset" (PList Cases.records_repeated)
                (Dict.set "files" (PList []) []) Cases.start).1 with
       | inr im => im
       | inl _ => []
       end) = Some (PDict details)
    /\ Dict.get "filetype" details = Some (PList filetype)
    /\ NoDup (hkeys filetype)
    /\ length (hkeys filetype) = length filetype
    /\ (forall d, PDict d ∈ Cases.records_repeated ->
          exists t k, Dict.get "image_type" d = Some t
                      /\ hash_key t = Some k /\ k ∈ hkeys filetype)
    /\ (forall v, v ∈ filetype ->
          exists d, PDict d ∈ Cases.records_repeated /\ Dict.get "image_type" d = Some v).
Proof.
  set (r := upload_step Catset.env Catset.flags "catset" (PList Cases.records_repeated)
              (Dict.set "files" (PList []) []) Cases.start).
  assert (r = (inr (match r.1 with inr im => im | inl _ => [] end), r.2)) as Hr
    by (vm_compute; reflexivity).
  exact (filetype_is_the_set_of_image_types _ _ _ _ _ _ _ _ Hr).
Defined.

Example filetype_of_repeated_records :
  exists im w',
    upload_step Catset.env Catset.flags "catset" (PList Cases.records_repeated)
      (Dict.set "files" (PList []) []) Cases.start = (inr im, w')
    /\ (Dict.get "dataset_details" im ≫= fun v =>
          match v with PDict details => Dict.get "filetype" details | _ => None end)
       = Some (PList [PStr "jpg"; PStr "png"]).
Proof. eexists _, _. split; [vm_compute; reflexivity|reflexivity]. Qed.

(** ** A record that cannot be uploaded *)

Lemma bind_assoc_run {A B C} (c : M A) (f : A -> M B) (g : B -> M C) w :
  ((c ≫= f) ≫= g) w = (c ≫= fun x => f x ≫= g) w.
Proof. rewrite !bind_run. by destruct (c w) as [[e|x] w1]. Qed.

Lemma bind_ext_run {A B} (c : M A) (f g : A -> M B) w :
  (forall x w1, f x w1 = g x w1) -> (c ≫= f) w = (c ≫= g) w.
Proof. intros H. rewrite !bind_run. by destruct (c w) as [[e|x] w1]. Qed.

(** The loop over a concatenation is the loop over the first part followed
    by the loop over the second, started with what the first returned. *)
Lemma upload_files_app E a b l1 l2 :
  forall img_format im w,
    upload_files E a b (l1 ++ l2) img_format im w
    = (upload_files E a b l1 img_format im ≫= fun r => upload_files E a b l2 r.1 r.2) w.
Proof.
  induction l1 as [|item l1 IH]; intros img_format im w; [done|].
  cbn [app upload_files].
  do 10 (rewrite bind_assoc_run; apply bind_ext_run; intros ? ?).
  apply IH.
Qed.

(** X16: a record without an image path ends the loop with a key error in
    exactly the state the records before it left: they stay uploaded,
    nothing of this record is logged or put, and no later record is looked
    at. *)
Theorem missing_image_path_stops_the_loop
    (E : Env) (a : args) (b : string) (good rest : list pyval) (d : pydict)
    img_format im w img_format1 im1 w1 :
  upload_files E a b good img_format im w = (inr (img_format1, im1), w1) ->
  Dict.get "image_path" d = None ->
  upload_files E a b (good ++ PDict d :: rest) img_format im w
    = (inl (Exn KeyError "'image_path'"), w1).
Proof.
  intros Hgood Hd. rewrite upload_files_app, (bind_inr _ _ _ _ _ Hgood).
  cbn [upload_files fst snd]. erewrite bind_inl; [done|].
  cbn [py_getitem]. by rewrite Hd.
Qed.

Lemma missing_image_path_stops_the_loop_witness :
  exists w1,
    upload_files Catset.env Catset.flags "catset" Cases.records_missing_path
      [] (Dict.set "files" (PList []) []) Cases.start
    = (inl (Exn KeyError "'image_path'"), w1)
    /\ put_calls (trace w1) = [("catset", "catset/cat1.jpg", 1000%N)].
Proof.
  set (r := upload_files Catset.env Catset.flags "catset"
              [PDict [("image_path", PStr "cat1.jpg"); ("image_type", PStr "jpg")]]
              [] (Dict.set "files" (PList []) []) Cases.start).
  assert (r = (inr ((match r.1 with inr x => x | inl _ => ([], []) end).1,
                    (match r.1 with inr x => x | inl _ => ([], []) end).2), r.2)) as Hr
    by (vm_compute; reflexivity).
  exists r.2. split; [|reflexivity].
  exact (missing_image_path_stops_the_loop Catset.env Catset.flags "catset"
           [PDict [("image_path", PStr "cat1.jpg"); ("image_type", PStr "jpg")]]
           [PDict [("image_path", PStr "cat2.png"); ("image_type", PStr "png")]]
           [("image_type", PStr "png")] _ _ _ _ _ _ Hr eq_refl).
Defined.



(** ** A document that is not a list *)

(** X18: when the metadata document is a JSON object with at least one key,
    the loop runs over its keys, which are strings: the upload step always
    raises and never puts an object, although the bucket look-up and,
    when the bucket was missing, its creation have been made. *)
Theorem object_document_uploads_nothing
    (E : Env) (a : args) (b : string) (k : string) (v : pyval) (d im : pydict) (w : world) :
  (exists e, (upload_step E a b (PDict ((k, v) :: d)) im w).1 = inl e)
  /\ (exists evs,
        trace (upload_step E a b (PDict ((k, v) :: d)) im w).2 = trace w ++ evs
        /\ Forall (fun e => is_put e = false) evs)
  /\ (minio_fault E (minio w) (bucket_exists b) = None ->
      minio_fault E (minio w) (make_bucket b) = None ->
      exists e,
        (upload_step E a b (PDict ((k, v) :: d)) im w).1 = inl e
        /\ exn_cls e = TypeError
        /\ b ∈ buckets (minio (upload_step E a b (PDict ((k, v) :: d)) im w).2)).
Proof.
  unfold upload_step. rewrite bind_run, client_bucket_exists_run.
  destruct (minio_fault E (minio w) (bucket_exists b)) as [e|] eqn:Hex.
  { split; [by eexists|]. split; [|done].
    eexists [_]. split; [done|]. by repeat constructor. }
  destruct (bool_decide_reflect (b ∈ buckets (minio w))) as [Hin|Hnin].
  - unfold mbind, M_bind, echo, logging_info, emit. cbn.
    split; [by eexists|]. split.
    + rewrite <- !app_assoc. eexists. split; [done|]. by repeat constructor.
    + intros _ _. by eexists.
  - unfold mbind, M_bind, echo, logging_info, emit, minio_call. cbn.
    destruct (minio_fault E (minio w) (make_bucket b)) as [e|] eqn:Hmk; cbn.
    + split; [by eexists|]. split; [|done].
      rewrite <- !app_assoc. eexists. split; [done|]. by repeat constructor.
    + split; [by eexists|]. split.
      * rewrite <- !app_assoc. eexists. split; [done|]. by repeat constructor.
      * intros _ _. eexists. split; [done|]. split; [done|]. set_solver.
Qed.

Lemma object_document_uploads_nothing_witness :
  exists e,
    (upload_step Catset.env Catset.flags "catset" Cases.object_document
       (Dict.set "files" (PList []) []) Cases.start).1 = inl e
    /\ exn_cls e = TypeError
    /\ "catset" ∈ buckets (minio (upload_step Catset.env Catset.flags "catset"
                                     Cases.object_document
                                     (Dict.set "files" (PList []) []) Cases.start).2).
Proof.
  exact (proj2 (proj2 (object_document_uploads_nothing Catset.env Catset.flags "catset"
                         "image_path" (PStr "cat1.jpg") [("image_type", PStr "jpg")]
                         (Dict.set "files" (PList []) []) Cases.start))
           eq_refl eq_refl).
Defined.

(** ** The derived bucket name *)

Lemma split_pieces_without_sep sep s :
  Forall (fun piece => PyStr.contains sep piece = false) (PyStr.split sep s).
Proof.
  induction s as [|c r IH]; simpl; [by repeat constructor|].
  destruct (Ascii.eqb c sep) eqn:Hc; [by constructor|].
  pose proof (split_nonempty sep r).
  destruct (PyStr.split sep r) as [|h t]; [done|].
  apply Forall_cons in IH as [Hh Ht]. constructor; [|done].
  simpl. by rewrite Hc.
Qed.

Lemma lower_char_slash c :
  Ascii.eqb (PyStr.lower_char c) "/" = Ascii.eqb c "/".
Proof. by destruct c as [[] [] [] [] [] [] [] []]. Qed.

Lemma lower_char_idem c : PyStr.lower_char (PyStr.lower_char c) = PyStr.lower_char c.
Proof. by destruct c as [[] [] [] [] [] [] [] []]. Qed.

Lemma lower_keeps_slashes s : PyStr.contains "/" (PyStr.lower s) = PyStr.contains "/" s.
Proof. induction s as [|c r IH]; simpl; [done|]. by rewrite lower_char_slash, IH. Qed.

Lemma lower_idem s : PyStr.lower (PyStr.lower s) = PyStr.lower s.
Proof. induction s as [|c r IH]; simpl; [done|]. by rewrite lower_char_idem, IH. Qed.

(** X19: a bucket name derived from the directory path contains no slash
    and is in lower case: lower-casing it again changes nothing. *)
Theorem derived_bucket_is_a_lowered_segment (dir_path : string) :
  PyStr.contains "/" (resolve_bucket "" dir_path) = false
  /\ PyStr.lower (resolve_bucket "" dir_path) = resolve_bucket "" dir_path.
Proof.
  unfold resolve_bucket. cbn [PyStr.is_empty]. split; [|apply lower_idem].
  rewrite lower_keeps_slashes.
  destruct (PyStr.contains "/" dir_path) eqn:Hc; [|done].
  destruct (split_last "/" dir_path) as [init Hs].
  pose proof (split_pieces_without_sep "/" dir_path) as Hall.
  rewrite Hs in Hall. apply Forall_app in Hall as [_ Hall].
  by inversion Hall.
Qed.

(** ** The dataset details *)

(** X20: when the upload step returns, the dataset details of the message
    have the five fields name, bucket, date, size and filetype, in that
    order; name is the directory path exactly as it was given, bucket is
    the bucket the files went to and equals dataset_name, and date is the
    day of the run. *)
Theorem dataset_details_describe_the_upload
    (E : Env) (a : args) (b : string) (metadata : pyval) (im : pydict) (w w' : world) :
  upload_step E a b metadata (Dict.set "files" (PList []) []) w = (inr im, w') ->
  exists details,
    Dict.get "dataset_details" im = Some (PDict details)
    /\ Dict.keys details = ["name"; "bucket"; "date"; "size"; "filetype"]
    /\ Dict.get "name" details = Some (PStr (dir_path a))
    /\ Dict.get "bucket" details = Some (PStr b)
    /\ Dict.get "bucket" details = Dict.get "dataset_name" im
    /\ Dict.get "date" details = Some (PStr (today E)).
Proof.
  intros H.
  destruct (upload_step_returns _ _ _ _ _ _ _ H)
    as (items & out & img_format & evs & _ & -> & _).
  eexists. split; [reflexivity|]. by repeat split.
Qed.

Lemma dataset_details_describe_the_upload_witness :
  exists details,
    Dict.get "dataset_details" Catset.message = Some (PDict details)
    /\ Dict.keys details = ["name"; "bucket"; "date"; "size"; "filetype"]
    /\ Dict.get "name" details = Some (PStr "catset")
    /\ Dict.get "bucket" details = Some (PStr "catset")
    /\ Dict.get "bucket" details = Dict.get "dataset_name" Catset.message
    /\ Dict.get "date" details = Some (PStr "2024-01-01").
Proof.
  set (r := upload_step Catset.env Catset.flags "catset" Catset.metadata
              (Dict.set "files" (PList []) []) Cases.start).
  assert (r = (inr Catset.message, r.2)) as Hr by (vm_compute; reflexivity).
  exact (dataset_details_describe_the_upload _ _ _ _ _ _ _ Hr).
Defined.
